(** * memvid-mcp: the tool-dispatch layer of [mcp/src/index.ts]

    A shallow embedding of the MCP gateway that wraps the memvid CLI:
    [resolvePath], [runCli], the [TOOLS] registry and the
    [CallToolRequestSchema] handler, followed by the properties the
    specification states about them.

    Conventions of the embedding.
    - JavaScript values are the inductive [value]; a JS object is a finite
      map from property names to values, an array is a list.
    - A string is a [string] whose characters stand for UTF-16 code units
      below 256.
    - Exceptions are explicit: a computation that may throw returns a
      [result]; a computation that may also spawn the CLI is an [act],
      which records every argument vector handed to [spawn]. [Async]
      repeats the handler over children that may never end.
    - What the JavaScript engine supplies (numbers and their formatting,
      [JSON.parse], the wording of its own error messages) is the
      interface [Engine]; [node] is an executable instance of it. *)

From Stdlib Require Import Ascii.
From stdpp Require Import gmap strings list pretty.

Set Warnings "-register-all".
Set Default Proof Using "Type".

Local Open Scope string_scope.
Local Open Scope Z_scope.
Local Open Scope list_scope.

(** ** Values *)

Inductive value (num : Type) : Type :=
| VUndefined
| VNull
| VBool (b : bool)
| VNum (n : num)
| VStr (s : string)
| VArr (elems : list (value num))
| VObj (props : gmap string (value num)).

Arguments VUndefined {num}.
Arguments VNull {num}.
Arguments VBool {num} b.
Arguments VNum {num} n.
Arguments VStr {num} s.
Arguments VArr {num} elems.
Arguments VObj {num} props.

(** ** Exceptions *)

(** Errors the engine itself raises. Their identity is structural; the
    text of their [message] is the engine's ([fault_message]). *)
Inductive fault :=
| JsonSyntaxError (input : string)
    (* SyntaxError: JSON.parse rejected [input] *)
| ReadOfNullish (is_null : bool) (key : string)
    (* TypeError: property [key] read from null or undefined *)
| NotIterable (expr : string)
    (* TypeError: for-of over a value that is not iterable *)
| NotAFunction (expr : string)
    (* TypeError: call of a value that is not a function *)
| NoPrimitiveValue
    (* TypeError: an object has no usable toString/valueOf *)
| InvalidTimeValue
    (* RangeError: Date.prototype.toISOString on an invalid date *)
| SpawnRejected (description : string).
    (* thrown synchronously by child_process.spawn *)

(** Everything the program can see thrown is an instance of [Error]:
    either its own [new Error(message)] or an engine fault. *)
Inductive exn :=
| Error (message : string)
| Fault (f : fault).

Inductive result (A : Type) : Type :=
| Ok (a : A)
| Throw (e : exn).

Arguments Ok {A} a.
Arguments Throw {A} e.

#[global] Instance result_ret : MRet result := fun A a => Ok a.
#[global] Instance result_bind : MBind result := fun A B f m =>
  match m with
  | Ok a => f a
  | Throw e => Throw e
  end.

(** ** The engine interface *)

Class Engine := {
  number : Type;
  (* ToBoolean on a number: false exactly for +0, -0 and NaN *)
  number_truthy : number -> bool;
  (* Number::toString, radix 10 *)
  number_to_string : number -> string;
  number_nan : number;
  (* ToNumber on a boolean: 0 or 1 *)
  number_of_bool : bool -> number;
  (* StringToNumber *)
  number_of_string : string -> number;
  (* new Date(n * 1000).toISOString(); None when the time value is invalid *)
  seconds_toISOString : number -> option string;
  (* (n / 1024).toFixed(1) *)
  kib_toFixed1 : number -> string;
  (* JSON.parse; None when it throws a SyntaxError *)
  JSON_parse : string -> option (value number);
  (* the message property of an engine error *)
  fault_message : fault -> string;
  (* the empty text is not a JSON document *)
  JSON_parse_empty : JSON_parse "" = None;
}.

(** ** Process-wide configuration, read once from the environment *)

Record environment := {
  MEMVID_DEFAULT_PATH : option string;
  MEMVID_CLI_PATH : option string;
}.

(** [process.env.X || fallback]: an unset or empty variable falls back. *)
Definition env_or (x : option string) (fallback : string) : string :=
  match x with
  | Some s => if String.eqb s "" then fallback else s
  | None => fallback
  end.

Definition DEFAULT_MEMORY_PATH (env : environment) : string :=
  env_or (MEMVID_DEFAULT_PATH env) "".

Definition CLI_PATH (env : environment) : string :=
  env_or (MEMVID_CLI_PATH env) "memvid".

(** ** Strings *)

Definition LF : string := String (Ascii.ascii_of_nat 10) "".

(** The double quote. *)
Definition DQUOTE : string := String (Ascii.ascii_of_nat 34) "".

(** White space of [String.prototype.trim] among the code units below 256:
    TAB, LF, VT, FF, CR, SP and NBSP. *)
Definition is_white_space (c : Ascii.ascii) : bool :=
  let n := Ascii.nat_of_ascii c in
  (Nat.leb 9 n && Nat.leb n 13) || Nat.eqb n 32 || Nat.eqb n 160.

Fixpoint trim_start (s : string) : string :=
  match s with
  | String c r => if is_white_space c then trim_start r else s
  | EmptyString => EmptyString
  end.

Fixpoint trim_end (s : string) : string :=
  match s with
  | String c r =>
      match trim_end r with
      | EmptyString => if is_white_space c then EmptyString else String c EmptyString
      | r' => String c r'
      end
  | EmptyString => EmptyString
  end.

Definition trim (s : string) : string := trim_end (trim_start s).

(** The characters of a string, one string per code unit (for-of). *)
Fixpoint chars (s : string) : list string :=
  match s with
  | String c r => String c EmptyString :: chars r
  | EmptyString => []
  end.

(** [s.slice(0, n)] *)
Fixpoint str_take (n : nat) (s : string) : string :=
  match n, s with
  | S k, String c r => String c (str_take k r)
  | _, _ => EmptyString
  end.

(** ** The tool registry *)

Record property_schema := {
  prop_type : string;
  prop_items : option string;
  prop_description : string;
}.

Record input_schema := {
  schema_type : string;
  properties : list (string * property_schema);
  required : option (list string);
}.

Record tool := {
  name : string;
  description : string;
  inputSchema : input_schema;
}.

Definition prop (ty : string) (descr : string) : property_schema :=
  {| prop_type := ty; prop_items := None; prop_description := descr |}.

Definition path_property : string * property_schema :=
  ("path", prop "string"
     "Path to memory file (.mv2). Uses MEMVID_DEFAULT_PATH if not provided.").

Definition TOOLS : list tool := [
  {| name := "memory_remember";
     description := "Store knowledge in memory. Use this to save insights, solutions, or information for later recall. Content is indexed for full-text search.";
     inputSchema := {|
       schema_type := "object";
       properties := [
         path_property;
         ("content", prop "string" "The knowledge to store");
         ("uri", prop "string"
            "Hierarchical identifier (e.g., mv2://topics/rust, mv2://projects/satori)");
         ("title", prop "string" "Short title for the content");
         ("tags", {| prop_type := "array"; prop_items := Some "string";
                     prop_description := "Tags for categorization" |})
       ];
       required := Some ["content"] |} |};
  {| name := "memory_recall";
     description := "Search memory for relevant knowledge. Returns matching content with snippets. Use scope to filter by URI prefix.";
     inputSchema := {|
       schema_type := "object";
       properties := [
         path_property;
         ("query", prop "string" "Search query");
         ("scope", prop "string" "URI prefix filter (e.g., mv2://topics/)");
         ("limit", prop "number" "Maximum results (default: 10)")
       ];
       required := Some ["query"] |} |};
  {| name := "memory_list";
     description := "Browse memory chronologically. Returns recent entries with previews. Use to see what knowledge is stored.";
     inputSchema := {|
       schema_type := "object";
       properties := [
         path_property;
         ("limit", prop "number" "Maximum entries (default: 20)");
         ("since", prop "number" "Unix timestamp - entries after this time");
         ("until", prop "number" "Unix timestamp - entries before this time")
       ];
       required := None |} |};
  {| name := "memory_stats";
     description := "Get statistics about the memory file. Shows frame count, size, and index status.";
     inputSchema := {|
       schema_type := "object";
       properties := [ path_property ];
       required := None |} |};
  {| name := "memory_create";
     description := "Create a new memory file. Only needed if starting fresh - memory_remember auto-creates if file doesn't exist.";
     inputSchema := {|
       schema_type := "object";
       properties := [
         ("path", prop "string" "Path to create the memory file (.mv2)")
       ];
       required := Some ["path"] |} |}
].

(** The names a schema requires: none when it has no [required] key. *)
Definition required_names (t : tool) : list string :=
  default [] (required (inputSchema t)).

Definition property_names (t : tool) : list string :=
  (properties (inputSchema t)).*1.

(** ** Responses *)

Record content_block := {
  type : string;
  text : string;
}.

Record response := {
  content : list content_block;
}.

(** [{ content: [{ type: "text", text }] }] *)
Definition text_response (t : string) : response :=
  {| content := [ {| type := "text"; text := t |} ] |}.

(** ** The external process *)

Record CliResult := {
  success : bool;
  stdout : string;
  stderr : string;
}.

(** What a child process emits before the promise of [runCli] settles:
    data on its two streams, then the first of [close] and [error]. A
    child that emits neither leaves the promise pending for ever (the
    source sets no timeout); such runs have no [child_run]. *)
Inductive chunk :=
| StdoutData (data : string)
| StderrData (data : string).

Inductive ending :=
| Close (code : option Z)       (* the exit code, null when killed by a signal *)
| ErrorEvent (message : string). (* the child could not be spawned *)

Record child_run := {
  emitted : list chunk;
  ended : ending;
}.

(** ** The gateway, over an engine, an environment and an operating system *)

Section Gateway.

Context `{Engine}.

(** The environment the server was started in, and what the operating
    system does when [spawn] is called with a file and an argument
    vector: it either throws at once or yields a child and its run. *)
Variable env : environment.
Variable spawn : string -> list (value number) -> result child_run.

Abbreviation val := (value number).

(** *** Coercions of the language *)

(** ToBoolean *)
Definition truthy (v : val) : bool :=
  match v with
  | VUndefined | VNull => false
  | VBool b => b
  | VNum n => number_truthy n
  | VStr s => negb (String.eqb s "")
  | VArr _ | VObj _ => true
  end.

(** ToString, as [String(v)] and template literals apply it. An array is
    joined with commas, null and undefined elements rendering empty; an
    object renders through [Object.prototype.toString] unless an own
    property shadows [toString], which no parsed value can make callable. *)
Fixpoint to_string (v : val) : result string :=
  match v with
  | VUndefined => Ok "undefined"
  | VNull => Ok "null"
  | VBool b => Ok (if b then "true" else "false")
  | VNum n => Ok (number_to_string n)
  | VStr s => Ok s
  | VArr elems =>
      let element (x : val) : result string :=
        match x with
        | VUndefined | VNull => Ok ""
        | _ => to_string x
        end in
      (fix join (l : list val) : result string :=
         match l with
         | [] => Ok ""
         | [x] => element x
         | x :: rest =>
             s ← element x;
             r ← join rest;
             Ok (s +:+ "," +:+ r)
         end) elems
  | VObj props =>
      match props !! "toString" with
      | Some _ => Throw (Fault NoPrimitiveValue)
      | None => Ok "[object Object]"
      end
  end.

(** ToNumber *)
Definition to_number (v : val) : result number :=
  match v with
  | VUndefined => Ok number_nan
  | VNull => Ok (number_of_bool false)
  | VBool b => Ok (number_of_bool b)
  | VNum n => Ok n
  | VStr s => Ok (number_of_string s)
  | VArr _ | VObj _ => s ← to_string v; Ok (number_of_string s)
  end.

(** [base.key], for the keys this program reads: none of them is found
    on the prototype of a primitive, and the one found on an array's
    ([entries]) is only ever iterated, which fails as undefined does. *)
Definition get (base : val) (key : string) : result val :=
  match base with
  | VUndefined => Throw (Fault (ReadOfNullish false key))
  | VNull => Throw (Fault (ReadOfNullish true key))
  | VObj props => Ok (default VUndefined (props !! key))
  | _ => Ok VUndefined
  end.

(** The values a for-of loop visits; [expr] is the text of the iterated
    expression, which the engine quotes when it is not iterable. *)
Definition iterate (expr : string) (v : val) : result (list val) :=
  match v with
  | VArr elems => Ok elems
  | VStr s => Ok (VStr <$> chars s)
  | _ => Throw (Fault (NotIterable expr))
  end.

(** [Array.isArray] *)
Definition Array_isArray (v : val) : bool :=
  match v with
  | VArr _ => true
  | _ => false
  end.

(** [a || b] *)
Definition or_else (a b : val) : val := if truthy a then a else b.

(** [JSON.parse(text)] *)
Definition parse (text : string) : result val :=
  match JSON_parse text with
  | Some v => Ok v
  | None => Throw (Fault (JsonSyntaxError text))
  end.

(** [error.message] *)
Definition error_message (e : exn) : string :=
  match e with
  | Error message => message
  | Fault f => fault_message f
  end.

(** *** Actions: results together with the spawns they made *)

Definition act (A : Type) : Type := (list (list val) * result A)%type.

#[global] Instance act_ret : MRet act := fun A a => ([], Ok a).
#[global] Instance act_bind : MBind act := fun A B f m =>
  match m with
  | (log, Ok a) => let '(log', r) := f a in (log ++ log', r)
  | (log, Throw e) => (log, Throw e)
  end.

(** A computation that spawns nothing. *)
Definition pure {A : Type} (r : result A) : act A := ([], r).

(** *** runCli *)

(** The two accumulators of [runCli] after the data events of a run. *)
Definition collect (emitted : list chunk) : string * string :=
  fold_left
    (fun acc c =>
       match c with
       | StdoutData data => (acc.1 +:+ data, acc.2)
       | StderrData data => (acc.1, acc.2 +:+ data)
       end)
    emitted ("", "").

(** The value the promise resolves with. *)
Definition settle (run : child_run) : CliResult :=
  match ended run with
  | Close code =>
      {| success := bool_decide (code = Some 0);
         stdout := trim (collect (emitted run)).1;
         stderr := trim (collect (emitted run)).2 |}
  | ErrorEvent message =>
      {| success := false; stdout := ""; stderr := message |}
  end.

Definition runCli (args : list val) : act CliResult :=
  ([args], run ← spawn (CLI_PATH env) args; Ok (settle run)).

(** *** resolvePath *)

Definition NO_PATH_MESSAGE : string :=
  "No memory file path provided. Set MEMVID_DEFAULT_PATH or provide 'path' parameter.".

Definition resolvePath (inputPath : val) : result val :=
  if truthy inputPath then Ok inputPath
  else if negb (String.eqb (DEFAULT_MEMORY_PATH env) "")
       then Ok (VStr (DEFAULT_MEMORY_PATH env))
       else Throw (Error NO_PATH_MESSAGE).

(** *** The argument bag *)

(** [args?.key]: the bag itself may be undefined. *)
Definition arg (args : option (gmap string val)) (key : string) : val :=
  default VUndefined (args ≫= (fun bag => bag !! key)).

(** [if (args?.key) cliArgs.push(flag, args.key)] *)
Definition push_if_set (args : option (gmap string val)) (key flag : string)
    (cliArgs : list val) : list val :=
  if truthy (arg args key) then cliArgs ++ [VStr flag; arg args key] else cliArgs.

(** [if (args?.key) cliArgs.push(flag, String(args.key))] *)
Definition push_stringified (args : option (gmap string val)) (key flag : string)
    (cliArgs : list val) : result (list val) :=
  if truthy (arg args key)
  then s ← to_string (arg args key); Ok (cliArgs ++ [VStr flag; VStr s])
  else Ok cliArgs.

(** The loop over [args.tags], guarded by [args?.tags && Array.isArray]. *)
Definition push_tags (args : option (gmap string val)) (cliArgs : list val) : list val :=
  if truthy (arg args "tags") && Array_isArray (arg args "tags")
  then
    match arg args "tags" with
    | VArr tags => fold_left (fun acc tag => acc ++ [VStr "-t"; tag]) tags cliArgs
    | _ => cliArgs
    end
  else cliArgs.

(** *** Argument vectors, one per tool *)

Definition compile_remember (args : option (gmap string val)) : result (list val) :=
  memPath ← resolvePath (arg args "path");
  let cliArgs := [VStr "put"; memPath] in
  let cliArgs := push_if_set args "content" "--content" cliArgs in
  let cliArgs := push_if_set args "uri" "--uri" cliArgs in
  let cliArgs := push_if_set args "title" "--title" cliArgs in
  Ok (push_tags args cliArgs).

Definition compile_recall (args : option (gmap string val)) : result (list val) :=
  memPath ← resolvePath (arg args "path");
  let cliArgs := [VStr "search"; memPath; arg args "query"] in
  let cliArgs := push_if_set args "scope" "--scope" cliArgs in
  push_stringified args "limit" "--limit" cliArgs.

Definition compile_list (args : option (gmap string val)) : result (list val) :=
  memPath ← resolvePath (arg args "path");
  let cliArgs := [VStr "timeline"; memPath] in
  cliArgs ← push_stringified args "limit" "--limit" cliArgs;
  cliArgs ← push_stringified args "since" "--since" cliArgs;
  push_stringified args "until" "--until" cliArgs.

Definition compile_stats (args : option (gmap string val)) : result (list val) :=
  memPath ← resolvePath (arg args "path");
  Ok [VStr "stats"; memPath].

(** *** Rendering the result of the CLI, one function per tool *)

(** A for-of loop that threads [text] through its body. *)
Fixpoint for_of {A : Type} (body : A -> val -> result A) (items : list val) (acc : A)
    : result A :=
  match items with
  | [] => Ok acc
  | item :: rest => acc' ← body acc item; for_of body rest acc'
  end.

(** [`Error: ${data.error || result.stderr}`] *)
Definition failure_text (data : val) (r : CliResult) : result string :=
  error ← get data "error";
  s ← to_string (or_else error (VStr (stderr r)));
  Ok ("Error: " +:+ s).

Definition render_remember (r : CliResult) : result response :=
  data ← parse (stdout r);
  text ← (if success r
          then frame_id ← get data "frame_id";
               s ← to_string frame_id;
               Ok ("Stored in frame " +:+ s)
          else failure_text data r);
  Ok (text_response text).

Definition render_hit (text : string) (hit : val) : result string :=
  title ← get hit "title";
  label ← (if truthy title then Ok title else get hit "uri");
  s_label ← to_string label;
  frame_id ← get hit "frame_id";
  s_frame ← to_string frame_id;
  let text := text +:+ "**" +:+ s_label +:+ "** (frame " +:+ s_frame +:+ ")" +:+ LF in
  snippet ← get hit "snippet";
  s_snippet ← to_string snippet;
  Ok (text +:+ s_snippet +:+ LF +:+ LF).

Definition render_recall (r : CliResult) : result response :=
  data ← parse (stdout r);
  if negb (success r)
  then text ← failure_text data r; Ok (text_response text)
  else
    total_hits ← get data "total_hits";
    s_total ← to_string total_hits;
    query ← get data "query";
    s_query ← to_string query;
    let text :=
      "Found " +:+ s_total +:+ " results for " +:+ DQUOTE +:+ s_query +:+ DQUOTE
        +:+ ":" +:+ LF +:+ LF in
    hits ← get data "hits";
    hits ← iterate "data.hits" hits;
    text ← for_of render_hit hits text;
    Ok (text_response text).

(** [entry.preview.slice(0, 100)]: strings and arrays have [slice]. *)
Definition slice_0_100 (preview : val) : result val :=
  match preview with
  | VUndefined => Throw (Fault (ReadOfNullish false "slice"))
  | VNull => Throw (Fault (ReadOfNullish true "slice"))
  | VStr s => Ok (VStr (str_take 100 s))
  | VArr elems => Ok (VArr (take 100 elems))
  | _ => Throw (Fault (NotAFunction "entry.preview.slice"))
  end.

Definition render_entry (text : string) (entry : val) : result string :=
  timestamp ← get entry "timestamp";
  seconds ← to_number timestamp;
  date ← match seconds_toISOString seconds with
         | Some date => Ok date
         | None => Throw (Fault InvalidTimeValue)
         end;
  uri ← get entry "uri";
  s_label ← (if truthy uri then to_string uri
             else frame_id ← get entry "frame_id";
                  s ← to_string frame_id;
                  Ok ("frame-" +:+ s));
  let text := text +:+ "**" +:+ s_label +:+ "** (" +:+ date +:+ ")" +:+ LF in
  preview ← get entry "preview";
  sliced ← slice_0_100 preview;
  s_preview ← to_string sliced;
  Ok (text +:+ s_preview +:+ "..." +:+ LF +:+ LF).

Definition render_list (r : CliResult) : result response :=
  data ← parse (stdout r);
  if negb (success r)
  then text ← failure_text data r; Ok (text_response text)
  else
    total ← get data "total";
    s_total ← to_string total;
    let text := "Memory contains " +:+ s_total +:+ " entries:" +:+ LF +:+ LF in
    entries ← get data "entries";
    entries ← iterate "data.entries" entries;
    text ← for_of render_entry entries text;
    Ok (text_response text).

Definition enabled (v : val) : string :=
  if truthy v then "enabled" else "disabled".

Definition render_stats (r : CliResult) : result response :=
  data ← parse (stdout r);
  if negb (success r)
  then text ← failure_text data r; Ok (text_response text)
  else
    path ← get data "path";
    s_path ← to_string path;
    active ← get data "active_frame_count";
    s_active ← to_string active;
    frames ← get data "frame_count";
    s_frames ← to_string frames;
    size_bytes ← get data "size_bytes";
    size ← to_number size_bytes;
    has_lex_index ← get data "has_lex_index";
    has_vec_index ← get data "has_vec_index";
    Ok (text_response
          ("Memory: " +:+ s_path +:+ LF
           +:+ "Frames: " +:+ s_active +:+ " active / " +:+ s_frames +:+ " total" +:+ LF
           +:+ "Size: " +:+ kib_toFixed1 size +:+ " KB" +:+ LF
           +:+ "Full-text search: " +:+ enabled has_lex_index +:+ LF
           +:+ "Vector search: " +:+ enabled has_vec_index)).

Definition render_create (r : CliResult) : result response :=
  data ← parse (stdout r);
  text ← (if success r
          then path ← get data "path";
               s ← to_string path;
               Ok ("Created memory file: " +:+ s)
          else failure_text data r);
  Ok (text_response text).

(** *** The CallTool handler *)

(** The body of the [try] block: the [switch] over the tool name. *)
Definition handler_try (name : string) (args : option (gmap string val)) : act response :=
  if decide (name = "memory_remember") then
    cliArgs ← pure (compile_remember args);
    r ← runCli cliArgs;
    pure (render_remember r)
  else if decide (name = "memory_recall") then
    cliArgs ← pure (compile_recall args);
    r ← runCli cliArgs;
    pure (render_recall r)
  else if decide (name = "memory_list") then
    cliArgs ← pure (compile_list args);
    r ← runCli cliArgs;
    pure (render_list r)
  else if decide (name = "memory_stats") then
    cliArgs ← pure (compile_stats args);
    r ← runCli cliArgs;
    pure (render_stats r)
  else if decide (name = "memory_create") then
    let memPath := arg args "path" in
    if negb (truthy memPath)
    then mret (text_response "Error: path is required")
    else
      r ← runCli [VStr "create"; memPath];
      pure (render_create r)
  else
    mret (text_response ("Unknown tool: " +:+ name)).

(** The handler itself: the [try] block and its [catch]. It returns the
    response together with the argument vectors it spawned the CLI with. *)
Definition handler (name : string) (args : option (gmap string val))
    : list (list val) * response :=
  match handler_try name args with
  | (spawned, Ok r) => (spawned, r)
  | (spawned, Throw error) =>
      (spawned, text_response ("Error: " +:+ error_message error))
  end.

End Gateway.

(** ** An executable engine

    [node] instantiates [Engine] for documents whose numbers are integers:
    a number is an integer or NaN, which is exact for the integers a
    double holds exactly (magnitude up to 2^53). Its [JSON_parse] reads
    the JSON grammar with integer literals and code units below 256; a
    literal with a fraction or an exponent, or an escape above code 255,
    is outside what this instance reads and is rejected. *)

Module V8.

Inductive double :=
| Int (z : Z)
| NaN.

Abbreviation json := (value double).

Definition double_truthy (d : double) : bool :=
  match d with
  | Int z => negb (z =? 0)
  | NaN => false
  end.

Definition double_to_string (d : double) : string :=
  match d with
  | Int z => pretty z
  | NaN => "NaN"
  end.

Definition double_of_bool (b : bool) : double := Int (if b then 1 else 0).

Definition quote : Ascii.ascii := Ascii.ascii_of_nat 34.
Definition backslash : Ascii.ascii := Ascii.ascii_of_nat 92.

Definition digit_of (c : Ascii.ascii) : option Z :=
  let n := Ascii.nat_of_ascii c in
  if Nat.leb 48 n && Nat.leb n 57 then Some (Z.of_nat (n - 48)) else None.

(** The longest run of decimal digits at the head of [s], read into [acc]. *)
Fixpoint read_digits (s : string) (acc : Z) : Z * string :=
  match s with
  | String c r =>
      match digit_of c with
      | Some d => read_digits r (10 * acc + d)
      | None => (acc, s)
      end
  | EmptyString => (acc, s)
  end.

Definition starts_with_digit (s : string) : bool :=
  match s with
  | String c _ => bool_decide (is_Some (digit_of c))
  | EmptyString => false
  end.

(** StringToNumber on decimal integers; a blank string is 0. Other
    numeric strings (fractions, exponents, other radixes, Infinity) are
    outside this instance and read as NaN. *)
Definition double_of_string (s : string) : double :=
  match trim s with
  | EmptyString => Int 0
  | String c r =>
      let '(negative, body) :=
        if Ascii.eqb c "-"%char then (true, r)
        else if Ascii.eqb c "+"%char then (false, r)
        else (false, String c r) in
      if starts_with_digit body then
        match read_digits body 0 with
        | (z, EmptyString) => Int (if negative then - z else z)
        | _ => NaN
        end
      else NaN
  end.

(** *** Dates *)

Definition pad (width : nat) (z : Z) : string :=
  let s := pretty z in
  String.concat "" (replicate (width - String.length s) "0") +:+ s.

(** Year, month and day of a day number counted from 1970-01-01. *)
Definition civil_from_days (days : Z) : Z * Z * Z :=
  let z := days + 719468 in
  let era := z / 146097 in
  let doe := z - era * 146097 in
  let yoe := (doe - doe / 1460 + doe / 36524 - doe / 146096) / 365 in
  let doy := doe - (365 * yoe + yoe / 4 - yoe / 100) in
  let mp := (5 * doy + 2) / 153 in
  let d := doy - (153 * mp + 2) / 5 + 1 in
  let m := if mp <? 10 then mp + 3 else mp - 9 in
  let y := yoe + era * 400 + (if m <=? 2 then 1 else 0) in
  (y, m, d).

Definition iso_year (y : Z) : string :=
  if (0 <=? y) && (y <=? 9999) then pad 4 y
  else (if y <? 0 then "-" else "+") +:+ pad 6 (Z.abs y).

(** [new Date(ms).toISOString()] for an integral time value. *)
Definition iso_of_millis (ms : Z) : option string :=
  if 8640000000000000 <? Z.abs ms then None
  else
    let '(y, m, d) := civil_from_days (ms / 86400000) in
    let t := ms mod 86400000 in
    Some (iso_year y +:+ "-" +:+ pad 2 m +:+ "-" +:+ pad 2 d +:+ "T"
          +:+ pad 2 (t / 3600000) +:+ ":" +:+ pad 2 (t / 60000 mod 60) +:+ ":"
          +:+ pad 2 (t / 1000 mod 60) +:+ "." +:+ pad 3 (t mod 1000) +:+ "Z").

Definition double_seconds_toISOString (d : double) : option string :=
  match d with
  | Int s => iso_of_millis (s * 1000)
  | NaN => None
  end.

(** [(n / 1024).toFixed(1)]: the nearest tenth, ties away from zero. *)
Definition double_kib_toFixed1 (d : double) : string :=
  match d with
  | Int z =>
      let tenths := (Z.abs z * 20 + 1024) / 2048 in
      (if z <? 0 then "-" else "") +:+ pretty (tenths / 10) +:+ "." +:+ pretty (tenths mod 10)
  | NaN => "NaN"
  end.

(** *** JSON.parse *)

Definition is_json_space (c : Ascii.ascii) : bool :=
  let n := Ascii.nat_of_ascii c in
  Nat.eqb n 32 || Nat.eqb n 9 || Nat.eqb n 10 || Nat.eqb n 13.

Fixpoint skip_space (s : string) : string :=
  match s with
  | String c r => if is_json_space c then skip_space r else s
  | EmptyString => EmptyString
  end.

Fixpoint strip_prefix (p s : string) : option string :=
  match p, s with
  | EmptyString, _ => Some s
  | String a p', String b s' => if Ascii.eqb a b then strip_prefix p' s' else None
  | String _ _, EmptyString => None
  end.

Definition hex_of (c : Ascii.ascii) : option nat :=
  let n := Ascii.nat_of_ascii c in
  if Nat.leb 48 n && Nat.leb n 57 then Some (n - 48)%nat
  else if Nat.leb 97 n && Nat.leb n 102 then Some (n - 87)%nat
  else if Nat.leb 65 n && Nat.leb n 70 then Some (n - 55)%nat
  else None.

Definition simple_escape (c : Ascii.ascii) : option Ascii.ascii :=
  if Ascii.eqb c quote then Some quote
  else if Ascii.eqb c backslash then Some backslash
  else if Ascii.eqb c "/"%char then Some "/"%char
  else if Ascii.eqb c "b"%char then Some (Ascii.ascii_of_nat 8)
  else if Ascii.eqb c "f"%char then Some (Ascii.ascii_of_nat 12)
  else if Ascii.eqb c "n"%char then Some (Ascii.ascii_of_nat 10)
  else if Ascii.eqb c "r"%char then Some (Ascii.ascii_of_nat 13)
  else if Ascii.eqb c "t"%char then Some (Ascii.ascii_of_nat 9)
  else None.

(** The characters of a string literal after its opening quote, and what
    follows its closing quote. *)
Fixpoint read_string (s : string) : option (string * string) :=
  match s with
  | EmptyString => None
  | String c r =>
      if Ascii.eqb c quote then Some (EmptyString, r)
      else if Ascii.eqb c backslash then
        match r with
        | String e r1 =>
            if Ascii.eqb e "u"%char then
              match r1 with
              | String h1 (String h2 (String h3 (String h4 r2))) =>
                  a ← hex_of h1; b ← hex_of h2; c ← hex_of h3; d ← hex_of h4;
                  if Nat.eqb a 0 && Nat.eqb b 0 then
                    '(body, rest) ← read_string r2;
                    Some (String (Ascii.ascii_of_nat (16 * c + d)) body, rest)
                  else None
              | _ => None
              end
            else
              x ← simple_escape e;
              '(body, rest) ← read_string r1;
              Some (String x body, rest)
        | EmptyString => None
        end
      else if Nat.ltb (Ascii.nat_of_ascii c) 32 then None
      else
        '(body, rest) ← read_string r;
        Some (String c body, rest)
  end.

(** An integer literal: an optional minus, then 0 or a run of digits that
    does not start with 0; no fraction or exponent may follow. *)
Definition read_number (s : string) : option (double * string) :=
  let '(negative, body) :=
    match s with
    | String c r => if Ascii.eqb c "-"%char then (true, r) else (false, s)
    | EmptyString => (false, s)
    end in
  match body with
  | String c r =>
      d ← digit_of c;
      let '(z, rest) := if d =? 0 then (0, r) else read_digits body 0 in
      match rest with
      | String n _ =>
          if Ascii.eqb n "."%char || Ascii.eqb n "e"%char || Ascii.eqb n "E"%char then None
          else Some (Int (if negative then - z else z), rest)
      | EmptyString => Some (Int (if negative then - z else z), rest)
      end
  | EmptyString => None
  end.

Fixpoint read_value (fuel : nat) (s : string) : option (json * string) :=
  match fuel with
  | O => None
  | S fuel =>
      match skip_space s with
      | EmptyString => None
      | String c r =>
          if Ascii.eqb c "{"%char then
            match skip_space r with
            | String c' r' =>
                if Ascii.eqb c' "}"%char then Some (VObj ∅, r')
                else read_members fuel r ∅
            | EmptyString => None
            end
          else if Ascii.eqb c "["%char then
            match skip_space r with
            | String c' r' =>
                if Ascii.eqb c' "]"%char then Some (VArr [], r')
                else read_elements fuel r []
            | EmptyString => None
            end
          else if Ascii.eqb c quote then
            '(str, rest) ← read_string r;
            Some (VStr str, rest)
          else if Ascii.eqb c "t"%char then
            rest ← strip_prefix "rue" r; Some (VBool true, rest)
          else if Ascii.eqb c "f"%char then
            rest ← strip_prefix "alse" r; Some (VBool false, rest)
          else if Ascii.eqb c "n"%char then
            rest ← strip_prefix "ull" r; Some (VNull, rest)
          else
            '(n, rest) ← read_number (String c r);
            Some (VNum n, rest)
      end
  end
with read_members (fuel : nat) (s : string) (members : gmap string json)
    : option (json * string) :=
  match fuel with
  | O => None
  | S fuel =>
      match skip_space s with
      | String c r =>
          if Ascii.eqb c quote then
            '(key, rest) ← read_string r;
            match skip_space rest with
            | String colon rest =>
                if Ascii.eqb colon ":"%char then
                  '(v, rest) ← read_value fuel rest;
                  match skip_space rest with
                  | String sep rest =>
                      if Ascii.eqb sep ","%char then read_members fuel rest (<[key:=v]> members)
                      else if Ascii.eqb sep "}"%char then Some (VObj (<[key:=v]> members), rest)
                      else None
                  | EmptyString => None
                  end
                else None
            | EmptyString => None
            end
          else None
      | EmptyString => None
      end
  end
with read_elements (fuel : nat) (s : string) (elements : list json)
    : option (json * string) :=
  match fuel with
  | O => None
  | S fuel =>
      '(v, rest) ← read_value fuel s;
      match skip_space rest with
      | String sep rest =>
          if Ascii.eqb sep ","%char then read_elements fuel rest (elements ++ [v])
          else if Ascii.eqb sep "]"%char then Some (VArr (elements ++ [v]), rest)
          else None
      | EmptyString => None
      end
  end.

(** Every call above that recurses has consumed a character, so twice the
    length of the text is fuel enough. *)
Definition JSON_parse (text : string) : option json :=
  '(v, rest) ← read_value (2 * String.length text + 2) text;
  match skip_space rest with
  | EmptyString => Some v
  | String _ _ => None
  end.

(** *** Messages

    The wording is V8's. For a text [JSON.parse] rejects, V8 words the
    message after the place of the first offence; this instance keeps
    V8's message for a text that ends before any token and names the
    text otherwise. *)

Definition message_of (f : fault) : string :=
  match f with
  | JsonSyntaxError input =>
      match skip_space input with
      | EmptyString => "Unexpected end of JSON input"
      | String _ _ => String quote input +:+ String quote " is not valid JSON"
      end
  | ReadOfNullish is_null key =>
      "Cannot read properties of " +:+ (if is_null then "null" else "undefined")
        +:+ " (reading '" +:+ key +:+ "')"
  | NotIterable expr => expr +:+ " is not iterable"
  | NotAFunction expr => expr +:+ " is not a function"
  | NoPrimitiveValue => "Cannot convert object to primitive value"
  | InvalidTimeValue => "Invalid time value"
  | SpawnRejected description => description
  end.

End V8.

#[global] Instance node : Engine := {|
  number := V8.double;
  number_truthy := V8.double_truthy;
  number_to_string := V8.double_to_string;
  number_nan := V8.NaN;
  number_of_bool := V8.double_of_bool;
  number_of_string := V8.double_of_string;
  seconds_toISOString := V8.double_seconds_toISOString;
  kib_toFixed1 := V8.double_kib_toFixed1;
  JSON_parse := V8.JSON_parse;
  fault_message := V8.message_of;
  JSON_parse_empty := eq_refl;
|}.

(** ** Calls whose child may never end

    The promise of [runCli] settles when the child emits close or error.
    The source sets no timeout and never ends the stdin it pipes to the
    child, so a child that emits neither leaves the promise, and the
    handler that awaits it, pending for ever. [Async] is the same code
    over an operating system whose children may not end: an awaited
    computation is resolved, rejected or pending. *)

Module Async.

Inductive lifetime :=
| Ends (run : child_run)
| NeverEnds.

Inductive outcome (A : Type) : Type :=
| Resolved (a : A)
| Rejected (e : exn)
| Pending.

Arguments Resolved {A} a.
Arguments Rejected {A} e.
Arguments Pending {A}.

Section Gateway.

Context `{Engine}.

Variable env : environment.
Variable launch : string -> list (value number) -> result lifetime.

Abbreviation val := (value number).

(** An awaited computation and the spawns it made. *)
Definition task (A : Type) : Type := (list (list val) * outcome A)%type.

#[global] Instance task_ret : MRet task := fun A a => ([], Resolved a).
#[global] Instance task_bind : MBind task := fun A B f m =>
  match m with
  | (log, Resolved a) => let '(log', r) := f a in (log ++ log', r)
  | (log, Rejected e) => (log, Rejected e)
  | (log, Pending) => (log, Pending)
  end.

(** A synchronous computation: it returns or throws at once. *)
Definition now {A : Type} (r : result A) : task A :=
  ([], match r with
       | Ok a => Resolved a
       | Throw e => Rejected e
       end).

Definition runCli (args : list val) : task CliResult :=
  ([args],
   match launch (CLI_PATH env) args with
   | Ok (Ends run) => Resolved (settle run)
   | Ok NeverEnds => Pending
   | Throw e => Rejected e
   end).

Definition handler_try (name : string) (args : option (gmap string val)) : task response :=
  if decide (name = "memory_remember") then
    cliArgs ← now (compile_remember env args);
    r ← runCli cliArgs;
    now (render_remember r)
  else if decide (name = "memory_recall") then
    cliArgs ← now (compile_recall env args);
    r ← runCli cliArgs;
    now (render_recall r)
  else if decide (name = "memory_list") then
    cliArgs ← now (compile_list env args);
    r ← runCli cliArgs;
    now (render_list r)
  else if decide (name = "memory_stats") then
    cliArgs ← now (compile_stats env args);
    r ← runCli cliArgs;
    now (render_stats r)
  else if decide (name = "memory_create") then
    let memPath := arg args "path" in
    if negb (truthy memPath)
    then mret (text_response "Error: path is required")
    else
      r ← runCli [VStr "create"; memPath];
      now (render_create r)
  else
    mret (text_response ("Unknown tool: " +:+ name)).

(** The handler: the spawns it made and its response, if it ever
    returns one. *)
Definition handler (name : string) (args : option (gmap string val))
    : list (list val) * option response :=
  match handler_try name args with
  | (spawned, Resolved r) => (spawned, Some r)
  | (spawned, Rejected error) =>
      (spawned, Some (text_response ("Error: " +:+ error_message error)))
  | (spawned, Pending) => (spawned, None)
  end.

End Gateway.

End Async.

(** ** Vocabulary of the specification

    Definitions the statements below use to say what the specification
    says; none of them is part of the program. *)

(** The names of the five registered tools. *)
Definition TOOL_NAMES : list string :=
  ["memory_remember"; "memory_recall"; "memory_list"; "memory_stats"; "memory_create"].

(** The flag pair an argument contributes to the vector: the flag and the
    rendered value when the argument is truthy, nothing otherwise. *)
Definition flag_pair `{Engine} (flag : string) (v rendered : value number) : list (value number) :=
  if truthy v then [VStr flag; rendered] else [].

(** [String(v)], evaluated only for a truthy [v]. *)
Definition stringified `{Engine} (v : value number) : result string :=
  if truthy v then to_string v else Ok "".

(** The five renderers, in the order of the registry. *)
Definition renderers `{Engine} : list (CliResult -> result response) :=
  [render_remember; render_recall; render_list; render_stats; render_create].

(** A result that, when it is a response, is a single text block. *)
Definition text_only (r : result response) : Prop :=
  match r with
  | Ok resp => exists t, resp = text_response t
  | Throw _ => True
  end.

(** Documents used in examples. *)
Definition FRAME_42 : string := "{" +:+ DQUOTE +:+ "frame_id" +:+ DQUOTE +:+ ": 42}".
Definition FILE_NOT_FOUND : string :=
  "{" +:+ DQUOTE +:+ "error" +:+ DQUOTE +:+ ":" +:+ DQUOTE +:+ "File not found" +:+ DQUOTE +:+ "}".
Definition EMPTY_ERROR : string :=
  "{" +:+ DQUOTE +:+ "error" +:+ DQUOTE +:+ ":" +:+ DQUOTE +:+ DQUOTE +:+ "}".

(** What a run wrote to each stream, in order. *)
Fixpoint written_to_stdout (emitted : list chunk) : string :=
  match emitted with
  | [] => ""
  | StdoutData data :: rest => data +:+ written_to_stdout rest
  | StderrData _ :: rest => written_to_stdout rest
  end.

Fixpoint written_to_stderr (emitted : list chunk) : string :=
  match emitted with
  | [] => ""
  | StdoutData _ :: rest => written_to_stderr rest
  | StderrData data :: rest => data +:+ written_to_stderr rest
  end.

(** The subcommand of the CLI behind each tool. *)
Definition SUBCOMMANDS : list (string * string) :=
  [("memory_remember", "put"); ("memory_recall", "search"); ("memory_list", "timeline");
   ("memory_stats", "stats"); ("memory_create", "create")].

(** The four tools that resolve their path through [resolvePath]. *)
Definition PATH_TOOLS : list string :=
  ["memory_remember"; "memory_recall"; "memory_list"; "memory_stats"].

(** A response that reports an error. *)
Definition reports_error (resp : response) : Prop :=
  exists s : string, resp = text_response ("Error: " +:+ s).

(** The pairs the tags of a bag contribute: one per element of an array,
    none for anything else. *)
Definition tag_pairs `{Engine} (tags : value number) : list (value number) :=
  match tags with
  | VArr elems => flat_map (fun tag => [VStr "-t"; tag]) elems
  | _ => []
  end.

(** A vector that starts with a subcommand and a truthy path. *)
Definition well_started `{Engine} (sub : string) (cliArgs : list (value number)) : Prop :=
  exists (path : value number) (rest : list (value number)),
    cliArgs = VStr sub :: path :: rest /\ truthy path = true.

(** Documents of a search and of a timeline, for examples. *)
Definition TWO_HITS : string :=
  "{" +:+ DQUOTE +:+ "total_hits" +:+ DQUOTE +:+ ":2,"
  +:+ DQUOTE +:+ "query" +:+ DQUOTE +:+ ":" +:+ DQUOTE +:+ "rust" +:+ DQUOTE +:+ ","
  +:+ DQUOTE +:+ "hits" +:+ DQUOTE +:+ ":[{"
  +:+ DQUOTE +:+ "title" +:+ DQUOTE +:+ ":" +:+ DQUOTE +:+ "Borrowing" +:+ DQUOTE +:+ ","
  +:+ DQUOTE +:+ "uri" +:+ DQUOTE +:+ ":" +:+ DQUOTE +:+ "mv2://a" +:+ DQUOTE +:+ ","
  +:+ DQUOTE +:+ "frame_id" +:+ DQUOTE +:+ ":1,"
  +:+ DQUOTE +:+ "snippet" +:+ DQUOTE +:+ ":" +:+ DQUOTE +:+ "first" +:+ DQUOTE +:+ "},{"
  +:+ DQUOTE +:+ "uri" +:+ DQUOTE +:+ ":" +:+ DQUOTE +:+ "mv2://b" +:+ DQUOTE +:+ ","
  +:+ DQUOTE +:+ "frame_id" +:+ DQUOTE +:+ ":2,"
  +:+ DQUOTE +:+ "snippet" +:+ DQUOTE +:+ ":" +:+ DQUOTE +:+ "second" +:+ DQUOTE +:+ "}]}".

Definition ONE_ENTRY_THEN_A_BAD_ONE : string :=
  "{" +:+ DQUOTE +:+ "total" +:+ DQUOTE +:+ ":2,"
  +:+ DQUOTE +:+ "entries" +:+ DQUOTE +:+ ":[{"
  +:+ DQUOTE +:+ "timestamp" +:+ DQUOTE +:+ ":1700000000,"
  +:+ DQUOTE +:+ "frame_id" +:+ DQUOTE +:+ ":7,"
  +:+ DQUOTE +:+ "preview" +:+ DQUOTE +:+ ":" +:+ DQUOTE +:+ "short" +:+ DQUOTE +:+ "},{"
  +:+ DQUOTE +:+ "frame_id" +:+ DQUOTE +:+ ":8,"
  +:+ DQUOTE +:+ "preview" +:+ DQUOTE +:+ ":" +:+ DQUOTE +:+ "no timestamp" +:+ DQUOTE +:+ "}]}".

(** The blocks of a text, one after the other. *)
Definition join_blocks (blocks : list string) : string := foldr String.append "" blocks.

(** The four tools that compile a vector, run it and render the result,
    each with its compiler and its renderer. *)
Definition STAGED `{Engine}
    : list (string
            * (environment -> option (gmap string (value number)) -> result (list (value number)))
            * (CliResult -> result response)) :=
  [("memory_remember", compile_remember, render_remember);
   ("memory_recall", compile_recall, render_recall);
   ("memory_list", compile_list, render_list);
   ("memory_stats", compile_stats, render_stats)].

(** The response the catch builds from what was thrown: Error: and the
    message, which is the message of the program's own Error or the
    engine's message of its fault. *)
Definition caught `{Engine} (e : exn) : response :=
  text_response
    ("Error: " +:+ match e with
                   | Error message => message
                   | Fault f => fault_message f
                   end).

(** What a call answers once its vector is compiled, stage by stage: the
    vector is spawned; a spawn that throws is caught; a child that never
    ends leaves no response; for a child that ended, output that does not
    parse is reported with the message of the parse error, and otherwise
    the rendered response is the answer, or what rendering threw is
    caught. *)
Definition awaited `{Engine} (env : environment)
    (launch : string -> list (value number) -> result Async.lifetime)
    (cliArgs : list (value number)) (render : CliResult -> result response)
    : list (list (value number)) * option response :=
  ([cliArgs],
   match launch (CLI_PATH env) cliArgs with
   | Throw e => Some (caught e)
   | Ok Async.NeverEnds => None
   | Ok (Async.Ends run) =>
       match JSON_parse (stdout (settle run)) with
       | None =>
           Some (text_response
                   ("Error: " +:+ fault_message (JsonSyntaxError (stdout (settle run)))))
       | Some _ =>
           match render (settle run) with
           | Ok r => Some r
           | Throw e => Some (caught e)
           end
       end
   end).

(** A CLI that, as memvid put does, reads its content from stdin when it
    is given no --content: spawned with put and a path alone it waits for
    a stdin that is never ended; otherwise it prints a frame id and exits
    with 0. *)
Definition PUT_READS_STDIN `{Engine} : string -> list (value number) -> result Async.lifetime :=
  fun _ cliArgs =>
    match cliArgs with
    | [VStr "put"; _] => Ok Async.NeverEnds
    | _ => Ok (Async.Ends {| emitted := [StdoutData FRAME_42]; ended := Close (Some 0) |})
    end.

(** * Properties *)

(** ** Helper lemmas *)

Lemma flat_map_fmap {A B C : Type} (g : A -> B) (f : B -> list C) (l : list A) :
  flat_map f (g <$> l) = flat_map (fun x => f (g x)) l.
Proof. induction l as [|x l IH]; [done|]. rewrite fmap_cons. simpl. by rewrite IH. Qed.

Section Lemmas.

Context `{Engine}.

Abbreviation val := (value number).

Lemma arg_insert (bag : gmap string val) (k k' : string) (v : val) :
  arg (Some (<[k:=v]> bag)) k' = if decide (k = k') then v else arg (Some bag) k'.
Proof.
  unfold arg. simpl. rewrite lookup_insert. by case_decide.
Qed.

Lemma arg_delete (bag : gmap string val) (k k' : string) :
  arg (Some (delete k bag)) k' = if decide (k = k') then VUndefined else arg (Some bag) k'.
Proof.
  unfold arg. simpl. rewrite lookup_delete. by case_decide.
Qed.

(** The loop over the tags appends one [-t tag] pair per element, in order. *)
Lemma tags_loop (tags : list val) (cliArgs : list val) :
  fold_left (fun acc tag => acc ++ [VStr "-t"; tag]) tags cliArgs
  = cliArgs ++ flat_map (fun tag => [VStr "-t"; tag]) tags.
Proof.
  revert cliArgs. induction tags as [|tag tags IH]; intros cliArgs; simpl.
  - by rewrite app_nil_r.
  - rewrite IH. by rewrite <- app_assoc.
Qed.

Lemma push_tags_array (args : option (gmap string val)) (tags : list val) (cliArgs : list val) :
  arg args "tags" = VArr tags ->
  push_tags args cliArgs = cliArgs ++ flat_map (fun tag => [VStr "-t"; tag]) tags.
Proof.
  intros Htags. unfold push_tags. rewrite Htags. simpl. apply tags_loop.
Qed.

Lemma push_tags_not_array (args : option (gmap string val)) (cliArgs : list val) :
  Array_isArray (arg args "tags") = false ->
  push_tags args cliArgs = cliArgs.
Proof.
  intros Hno. unfold push_tags. rewrite Hno. by rewrite andb_false_r.
Qed.

(** Apart from the tags loop, [compile_remember] only reads [path],
    [content], [uri] and [title]. *)
Lemma compile_remember_split (env : environment) (args : option (gmap string val)) :
  compile_remember env args
  = (memPath ← resolvePath env (arg args "path");
     Ok (push_tags args
           (push_if_set args "title" "--title"
              (push_if_set args "uri" "--uri"
                 (push_if_set args "content" "--content" [VStr "put"; memPath]))))).
Proof. reflexivity. Qed.

(** Two bags that agree outside [tags], the second without an array of
    tags: the first compiles to what the second does, then its tags loop. *)
Lemma compile_remember_without_tags (env : environment) (a b : option (gmap string val)) :
  (forall key, key <> "tags" -> arg a key = arg b key) ->
  Array_isArray (arg b "tags") = false ->
  compile_remember env a
  = (cliArgs ← compile_remember env b; Ok (push_tags a cliArgs)).
Proof.
  intros Hsame Hb. rewrite !compile_remember_split.
  rewrite (Hsame "path") by done.
  destruct (resolvePath env (arg b "path")) as [memPath|e]; [simpl|done].
  rewrite (push_tags_not_array b) by done.
  unfold push_if_set.
  by rewrite (Hsame "content"), (Hsame "uri"), (Hsame "title").
Qed.

Lemma arg_insert_delete (bag : gmap string val) (k key : string) (v : val) :
  key <> k -> arg (Some (<[k:=v]> bag)) key = arg (Some (delete k bag)) key.
Proof. intros Hkey. rewrite arg_insert, arg_delete. by repeat case_decide. Qed.

End Lemmas.

(** ** The executable engine on examples *)

Example node_parses_a_document :
  JSON_parse (Engine:=node) " [1, -20, [true, false, null], {}, [] ] "
  = Some (VArr [VNum (V8.Int 1); VNum (V8.Int (-20));
                VArr [VBool true; VBool false; VNull]; VObj ∅; VArr []]).
Proof. by vm_compute. Qed.

Example node_parses_an_object :
  JSON_parse (Engine:=node) FRAME_42 = Some (VObj {[ "frame_id" := VNum (V8.Int 42) ]})
  /\ JSON_parse (Engine:=node) FILE_NOT_FOUND = Some (VObj {[ "error" := VStr "File not found" ]}).
Proof. split; by vm_compute. Qed.

Example node_rejects_what_is_not_json :
  Forall (fun text => JSON_parse (Engine:=node) text = None)
    [""; "  "; "{"; "[1,]"; "tru"; "01"; "-"; "spawn memvid ENOENT"; "{} {}"].
Proof. repeat constructor. Qed.

Example node_formats_dates_and_sizes :
  seconds_toISOString (Engine:=node) (V8.Int 1700000000) = Some "2023-11-14T22:13:20.000Z"
  /\ seconds_toISOString (Engine:=node) (V8.Int 951782400) = Some "2000-02-29T00:00:00.000Z"
  /\ seconds_toISOString (Engine:=node) (V8.Int (-1)) = Some "1969-12-31T23:59:59.000Z"
  /\ seconds_toISOString (Engine:=node) (V8.Int 8640000000001) = None
  /\ seconds_toISOString (Engine:=node) V8.NaN = None
  /\ kib_toFixed1 (Engine:=node) (V8.Int 1536) = "1.5"
  /\ kib_toFixed1 (Engine:=node) (V8.Int 123456789) = "120563.3".
Proof. repeat split; by vm_compute. Qed.

Example trim_examples :
  trim "  a b  " = "a b" /\ trim (LF +:+ "{}" +:+ LF) = "{}" /\ trim "   " = "".
Proof. repeat split; by vm_compute. Qed.

(** A whole call, with Node: the bag of the specification's example, a
    CLI that prints a frame id and exits with 0. *)
Example handler_remember_end_to_end :
  handler (H:=node) {| MEMVID_DEFAULT_PATH := Some "/m.mv2"; MEMVID_CLI_PATH := None |}
    (fun _ _ => Ok {| emitted := [StdoutData FRAME_42; StdoutData LF]; ended := Close (Some 0) |})
    "memory_remember"
    (Some {[ "content" := VStr "x"; "tags" := VArr [VStr "a"; VStr "b"] ]})
  = ([[VStr "put"; VStr "/m.mv2"; VStr "--content"; VStr "x";
       VStr "-t"; VStr "a"; VStr "-t"; VStr "b"]],
     text_response "Stored in frame 42").
Proof. by vm_compute. Qed.

(** ** The tool registry *)

(** C4. The registry holds exactly the five tools memory_remember,
    memory_recall, memory_list, memory_stats and memory_create, in that
    order; no two of them share a name; and every name a schema lists as
    required is a key of that schema's properties. *)
Theorem TOOLS_five_unique_and_required_declared :
  name <$> TOOLS = TOOL_NAMES
  /\ length TOOLS = 5%nat
  /\ NoDup (name <$> TOOLS)
  /\ Forall (fun t => forall key, key ∈ required_names t -> key ∈ property_names t) TOOLS.
Proof.
  split; [reflexivity|]. split; [reflexivity|]. split.
  - apply (bool_decide_unpack _). by vm_compute.
  - assert (Hsub : Forall (fun t => required_names t ⊆ property_names t) TOOLS).
    { apply (bool_decide_unpack _). by vm_compute. }
    eapply Forall_impl; [exact Hsub|]. intros t Ht key Hkey. by apply Ht.
Qed.

(** ** resolvePath *)

(** C2. An explicit non-empty path is returned unchanged whatever the
    default is; without an explicit path a non-empty default is returned;
    when the explicit path is undefined or empty and the default is unset
    or empty, resolvePath throws an Error whose message names the
    variable to set, MEMVID_DEFAULT_PATH, and the path parameter. *)
Theorem resolvePath_explicit_then_default_then_error `{Engine} :
  (forall (env : environment) (explicit : string),
      explicit <> "" -> resolvePath env (VStr explicit) = Ok (VStr explicit))
  /\ (forall (env : environment) (configured : string),
      MEMVID_DEFAULT_PATH env = Some configured -> configured <> "" ->
      resolvePath env VUndefined = Ok (VStr configured)
      /\ resolvePath env (VStr "") = Ok (VStr configured))
  /\ (forall (env : environment) (explicit : value number),
      explicit = VUndefined \/ explicit = VStr "" ->
      MEMVID_DEFAULT_PATH env = None \/ MEMVID_DEFAULT_PATH env = Some "" ->
      resolvePath env explicit
      = Throw (Error "No memory file path provided. Set MEMVID_DEFAULT_PATH or provide 'path' parameter.")).
Proof.
  split; [|split].
  - intros env explicit Hne. unfold resolvePath. simpl.
    by apply String.eqb_neq in Hne as ->.
  - intros env configured Hset Hne.
    assert (Hdef : DEFAULT_MEMORY_PATH env = configured).
    { unfold DEFAULT_MEMORY_PATH, env_or. rewrite Hset.
      by apply String.eqb_neq in Hne as ->. }
    unfold resolvePath. simpl. rewrite Hdef.
    by apply String.eqb_neq in Hne as ->.
  - intros env explicit Hexplicit Hdefault.
    assert (Hdef : DEFAULT_MEMORY_PATH env = "").
    { unfold DEFAULT_MEMORY_PATH, env_or. by destruct Hdefault as [-> | ->]. }
    unfold resolvePath. rewrite Hdef.
    by destruct Hexplicit as [-> | ->].
Qed.

(** The examples of the specification: with the default /default/path.mv2
    the explicit /custom/path.mv2 wins and an undefined path resolves to
    the default; with no default an undefined path is an error. *)
Lemma resolvePath_examples :
  let configured := {| MEMVID_DEFAULT_PATH := Some "/default/path.mv2"; MEMVID_CLI_PATH := None |} in
  let bare := {| MEMVID_DEFAULT_PATH := None; MEMVID_CLI_PATH := None |} in
  resolvePath (H:=node) configured (VStr "/custom/path.mv2") = Ok (VStr "/custom/path.mv2")
  /\ resolvePath (H:=node) configured VUndefined = Ok (VStr "/default/path.mv2")
  /\ resolvePath (H:=node) bare VUndefined
     = Throw (Error "No memory file path provided. Set MEMVID_DEFAULT_PATH or provide 'path' parameter.").
Proof.
  pose proof (resolvePath_explicit_then_default_then_error (H:=node))
    as (Hexplicit & Hdefault & Herror).
  split; [|split].
  - by apply Hexplicit.
  - by apply (Hdefault _ "/default/path.mv2").
  - apply Herror; by left.
Defined.

(** ** Argument vectors *)

(** C3. With the default path /m.mv2, the bag {content: x, tags: [a, b]}
    compiles to put /m.mv2 --content x -t a -t b. In general, for every
    list of strings given as tags, the compiled vector is the vector of
    the same bag without tags followed by one -t tag pair per element,
    in input order, repeated elements included. *)
Theorem compile_remember_tags_in_order `{Engine} :
  compile_remember
    {| MEMVID_DEFAULT_PATH := Some "/m.mv2"; MEMVID_CLI_PATH := None |}
    (Some {[ "content" := VStr "x"; "tags" := VArr [VStr "a"; VStr "b"] ]})
  = Ok [VStr "put"; VStr "/m.mv2"; VStr "--content"; VStr "x";
        VStr "-t"; VStr "a"; VStr "-t"; VStr "b"]
  /\ forall (env : environment) (bag : gmap string (value number)) (tags : list string),
      compile_remember env (Some (<["tags" := VArr (VStr <$> tags)]> bag))
      = (cliArgs ← compile_remember env (Some (delete "tags" bag));
         Ok (cliArgs ++ flat_map (fun tag => [VStr "-t"; VStr tag]) tags)).
Proof.
  split; [by vm_compute|].
  intros env bag tags.
  rewrite (compile_remember_without_tags env _ (Some (delete "tags" bag))).
  - destruct (compile_remember env (Some (delete "tags" bag))) as [cliArgs|e]; [simpl|done].
    rewrite (push_tags_array _ (VStr <$> tags)) by (by rewrite arg_insert).
    by rewrite flat_map_fmap.
  - intros key Hkey. by apply arg_insert_delete.
  - by rewrite arg_delete.
Qed.

(** C10. A tags field that is not an array is ignored: the bag compiles
    exactly as the same bag without tags does (so it raises no error of
    its own), and the tags step appends nothing, no -t pair included. *)
Theorem compile_remember_ignores_non_array_tags `{Engine}
    (env : environment) (bag : gmap string (value number)) (tags : value number) :
  Array_isArray tags = false ->
  compile_remember env (Some (<["tags" := tags]> bag))
  = compile_remember env (Some (delete "tags" bag))
  /\ forall cliArgs, push_tags (Some (<["tags" := tags]> bag)) cliArgs = cliArgs.
Proof.
  intros Hno.
  assert (Hskip : forall cliArgs, push_tags (Some (<["tags" := tags]> bag)) cliArgs = cliArgs).
  { intros cliArgs. apply push_tags_not_array. by rewrite arg_insert. }
  split; [|done].
  rewrite (compile_remember_without_tags env _ (Some (delete "tags" bag))).
  - destruct (compile_remember env (Some (delete "tags" bag))) as [cliArgs|e]; [simpl|done].
    by rewrite Hskip.
  - intros key Hkey. by apply arg_insert_delete.
  - by rewrite arg_delete.
Qed.

(** A string where the array of tags belongs: the vector is that of the
    bag without tags. *)
Lemma compile_remember_string_tags :
  let env := {| MEMVID_DEFAULT_PATH := Some "/m.mv2"; MEMVID_CLI_PATH := None |} in
  let bag : gmap string (value number) := {[ "content" := VStr "x" ]} in
  Array_isArray (H:=node) (VStr "a,b") = false
  /\ compile_remember (H:=node) env (Some (<["tags" := VStr "a,b"]> bag))
     = Ok [VStr "put"; VStr "/m.mv2"; VStr "--content"; VStr "x"].
Proof.
  split; [reflexivity|].
  refine (eq_trans
            (proj1 (compile_remember_ignores_non_array_tags (H:=node) _ _ (VStr "a,b") eq_refl))
            _).
  by vm_compute.
Defined.

Lemma push_if_set_flag_pair `{Engine} (args : option (gmap string (value number)))
    (key flag : string) (cliArgs : list (value number)) :
  push_if_set args key flag cliArgs = cliArgs ++ flag_pair flag (arg args key) (arg args key).
Proof.
  unfold push_if_set, flag_pair. destruct (truthy (arg args key)); [done|].
  by rewrite app_nil_r.
Qed.

Lemma push_stringified_flag_pair `{Engine} (args : option (gmap string (value number)))
    (key flag : string) (cliArgs : list (value number)) :
  push_stringified args key flag cliArgs
  = (s ← stringified (arg args key);
     Ok (cliArgs ++ flag_pair flag (arg args key) (VStr s))).
Proof.
  unfold push_stringified, stringified, flag_pair.
  destruct (truthy (arg args key)); simpl; [done|].
  by rewrite app_nil_r.
Qed.

(** C9, as the code has it. The vector of memory_recall is search, the
    path and the query, then the pair --scope scope if and only if scope
    is truthy, then the pair --limit String(limit) if and only if limit
    is truthy; the vector of memory_list is timeline and the path, then
    in the same way the pairs for limit, since and until. An argument that
    is present but falsy (0, NaN, the empty string, null, false)
    contributes no pair. *)
Theorem compile_flag_pairs_iff_truthy `{Engine}
    (env : environment) (args : option (gmap string (value number))) :
  compile_recall env args
  = (memPath ← resolvePath env (arg args "path");
     limit ← stringified (arg args "limit");
     Ok ([VStr "search"; memPath; arg args "query"]
         ++ flag_pair "--scope" (arg args "scope") (arg args "scope")
         ++ flag_pair "--limit" (arg args "limit") (VStr limit)))
  /\ compile_list env args
  = (memPath ← resolvePath env (arg args "path");
     limit ← stringified (arg args "limit");
     since ← stringified (arg args "since");
     until ← stringified (arg args "until");
     Ok ([VStr "timeline"; memPath]
         ++ flag_pair "--limit" (arg args "limit") (VStr limit)
         ++ flag_pair "--since" (arg args "since") (VStr since)
         ++ flag_pair "--until" (arg args "until") (VStr until)))
  /\ forall (flag : string) (v rendered : value number),
      (flag_pair flag v rendered = [VStr flag; rendered] <-> truthy v = true)
      /\ (flag_pair flag v rendered = [] <-> truthy v = false).
Proof.
  split; [|split].
  - unfold compile_recall.
    destruct (resolvePath env (arg args "path")) as [memPath|e]; [simpl|done].
    rewrite push_stringified_flag_pair, push_if_set_flag_pair.
    destruct (stringified (arg args "limit")) as [limit|e]; [simpl|done].
    by rewrite <- ?app_assoc.
  - unfold compile_list.
    destruct (resolvePath env (arg args "path")) as [memPath|e]; [simpl|done].
    rewrite push_stringified_flag_pair.
    destruct (stringified (arg args "limit")) as [limit|e]; [simpl|done].
    rewrite push_stringified_flag_pair.
    destruct (stringified (arg args "since")) as [since|e]; [simpl|done].
    rewrite push_stringified_flag_pair.
    destruct (stringified (arg args "until")) as [until|e]; [simpl|done].
    by rewrite <- ?app_assoc.
  - intros flag v rendered. unfold flag_pair.
    destruct (truthy v); split; split; done.
Qed.

(** A limit of 0 is present in the bag and yet compiles to no --limit
    pair; so does a since of 0 for memory_list. *)
Lemma present_zero_limit_compiles_to_no_flag :
  let env := {| MEMVID_DEFAULT_PATH := Some "/m.mv2"; MEMVID_CLI_PATH := None |} in
  let recall : gmap string (value number) :=
    {[ "query" := VStr "q"; "limit" := VNum (V8.Int 0) ]} in
  let browse : gmap string (value number) := {[ "since" := VNum (V8.Int 0) ]} in
  is_Some (recall !! "limit")
  /\ compile_recall (H:=node) env (Some recall) = Ok [VStr "search"; VStr "/m.mv2"; VStr "q"]
  /\ (VStr "--limit" ∉ [VStr "search"; VStr "/m.mv2"; VStr (num:=V8.double) "q"])
  /\ is_Some (browse !! "since")
  /\ compile_list (H:=node) env (Some browse) = Ok [VStr "timeline"; VStr "/m.mv2"]
  /\ (VStr "--since" ∉ [VStr "timeline"; VStr (num:=V8.double) "/m.mv2"]).
Proof.
  repeat split; try (by vm_compute); try (by eexists; vm_compute).
  - intros Hin. repeat (apply elem_of_cons in Hin as [Hin|Hin]; [discriminate Hin|]).
    by apply elem_of_nil in Hin.
  - intros Hin. repeat (apply elem_of_cons in Hin as [Hin|Hin]; [discriminate Hin|]).
    by apply elem_of_nil in Hin.
Qed.

(** A truthy limit and a truthy scope each contribute their pair. *)
Lemma compile_recall_with_limit :
  compile_recall (H:=node)
    {| MEMVID_DEFAULT_PATH := Some "/m.mv2"; MEMVID_CLI_PATH := None |}
    (Some {[ "query" := VStr "q"; "scope" := VStr "mv2://topics/"; "limit" := VNum (V8.Int 5) ]})
  = Ok [VStr "search"; VStr "/m.mv2"; VStr "q";
        VStr "--scope"; VStr "mv2://topics/"; VStr "--limit"; VStr "5"].
Proof.
  refine (eq_trans (proj1 (compile_flag_pairs_iff_truthy (H:=node) _ _)) _).
  by vm_compute.
Defined.

(** ** Dispatch *)

(** C8. A name that is none of the five registered tools is answered
    with Unknown tool: name, and the handler spawns nothing. *)
Theorem unknown_tool_spawns_nothing `{Engine}
    (env : environment) (spawn : string -> list (value number) -> result child_run)
    (name : string) (args : option (gmap string (value number))) :
  name ∉ TOOL_NAMES ->
  handler env spawn name args = ([], text_response ("Unknown tool: " +:+ name)).
Proof.
  intros Hunknown. unfold handler, handler_try.
  repeat (case_decide as Hname;
          [exfalso; apply Hunknown; rewrite Hname; apply (bool_decide_unpack _); by vm_compute
          |clear Hname]).
  reflexivity.
Qed.

(** memory_forget is no tool: it is answered as unknown, and the spawn
    that would have thrown is never called. *)
Lemma unknown_tool_example :
  ("memory_forget" ∉ TOOL_NAMES)
  /\ handler (H:=node) {| MEMVID_DEFAULT_PATH := None; MEMVID_CLI_PATH := None |}
       (fun _ _ => Throw (Fault (SpawnRejected "never reached")))
       "memory_forget" (Some {[ "path" := VStr "/m.mv2" ]})
     = ([], text_response "Unknown tool: memory_forget").
Proof.
  assert (Hunknown : "memory_forget" ∉ TOOL_NAMES).
  { apply (bool_decide_unpack _). by vm_compute. }
  split; [exact Hunknown|].
  exact (unknown_tool_spawns_nothing (H:=node) _ _ "memory_forget" _ Hunknown).
Defined.

(** ** Rendering *)

(** C5. For memory_remember, a successful run whose output parses to an
    object renders as Stored in frame followed by the string conversion
    of the frame_id field of that object. *)
Theorem render_remember_stored_in_frame `{Engine}
    (r : CliResult) (fields : gmap string (value number)) (frame_id : string) :
  success r = true ->
  JSON_parse (stdout r) = Some (VObj fields) ->
  to_string (default VUndefined (fields !! "frame_id")) = Ok frame_id ->
  render_remember r = Ok (text_response ("Stored in frame " +:+ frame_id)).
Proof.
  intros Hsuccess Hparse Hframe.
  unfold render_remember, parse. rewrite Hparse, Hsuccess. simpl.
  by rewrite Hframe.
Qed.

(** The output {frame_id: 42} of a successful run renders as exactly
    Stored in frame 42. *)
Lemma render_remember_frame_42 :
  render_remember (H:=node) {| success := true; stdout := FRAME_42; stderr := "" |}
  = Ok (text_response "Stored in frame 42").
Proof.
  exact (render_remember_stored_in_frame (H:=node)
           {| success := true; stdout := FRAME_42; stderr := "" |}
           {[ "frame_id" := VNum (V8.Int 42) ]} "42" eq_refl eq_refl eq_refl).
Defined.

(** C6, as the code has it. For every tool, a failed run whose output
    parses to an object renders as Error: followed by the error field of
    that object when the field is truthy (a non-empty string, say), and
    as Error: followed by the captured stderr when the field is absent
    or falsy (the empty string, null, false, 0). *)
Theorem failed_run_prefers_truthy_error_field `{Engine}
    (r : CliResult) (fields : gmap string (value number)) :
  success r = false ->
  JSON_parse (stdout r) = Some (VObj fields) ->
  Forall
    (fun render =>
       (forall (error : value number) (s : string),
           fields !! "error" = Some error -> truthy error = true -> to_string error = Ok s ->
           render r = Ok (text_response ("Error: " +:+ s)))
       /\ (truthy (default VUndefined (fields !! "error")) = false ->
           render r = Ok (text_response ("Error: " +:+ stderr r))))
    renderers.
Proof.
  intros Hfailed Hparse.
  assert (Htruthy : forall (error : value number) (s : string),
             fields !! "error" = Some error -> truthy error = true -> to_string error = Ok s ->
             failure_text (VObj fields) r = Ok ("Error: " +:+ s)).
  { intros error s Hfield Htrue Hs. unfold failure_text, or_else. simpl.
    rewrite Hfield. simpl. rewrite Htrue, Hs. done. }
  assert (Hfalsy : truthy (default VUndefined (fields !! "error")) = false ->
             failure_text (VObj fields) r = Ok ("Error: " +:+ stderr r)).
  { intros Hfalse. unfold failure_text, or_else. simpl. by rewrite Hfalse. }
  unfold renderers.
  repeat (apply List.Forall_cons; [split|]); [..|apply List.Forall_nil].
  all: try (intros error s Hfield Htrue Hs; specialize (Htruthy error s Hfield Htrue Hs)).
  all: try (intros Hfalse; specialize (Hfalsy Hfalse)).
  all: unfold render_remember, render_recall, render_list, render_stats, render_create, parse;
    rewrite Hparse, Hfailed; simpl.
  all: first [by rewrite Htruthy | by rewrite Hfalsy].
Qed.

(** The output {error: File not found} of a failed run renders as exactly
    Error: File not found for each of the five tools, whatever stderr
    holds. *)
Lemma failed_run_file_not_found :
  Forall
    (fun render =>
       render {| success := false; stdout := FILE_NOT_FOUND; stderr := "exit status 1" |}
       = Ok (text_response "Error: File not found"))
    (renderers (H:=node)).
Proof.
  eapply Forall_impl.
  - exact (failed_run_prefers_truthy_error_field (H:=node)
             {| success := false; stdout := FILE_NOT_FOUND; stderr := "exit status 1" |}
             {[ "error" := VStr "File not found" ]} eq_refl eq_refl).
  - intros render [Htruthy _].
    exact (Htruthy (VStr "File not found") "File not found" eq_refl eq_refl eq_refl).
Defined.

(** An error field that is present but empty is passed over for stderr:
    the output {error: } of a failed run with stderr boom renders as
    Error: boom, not as Error: followed by the error field. *)
Lemma empty_error_field_yields_stderr :
  let r := {| success := false; stdout := EMPTY_ERROR; stderr := "boom" |} in
  JSON_parse (Engine:=node) (stdout r) = Some (VObj {[ "error" := VStr "" ]})
  /\ render_remember (H:=node) r = Ok (text_response "Error: boom")
  /\ render_remember (H:=node) r <> Ok (text_response ("Error: " +:+ "")).
Proof.
  repeat split; try (by vm_compute).
Qed.

(** ** Launch failures *)

Lemma arg_singleton `{Engine} (k k' : string) (v : value number) :
  arg (Some {[ k := v ]}) k' = if decide (k = k') then v else VUndefined.
Proof.
  unfold arg. simpl. case_decide as Hk.
  - subst k'. by rewrite lookup_singleton_eq.
  - by rewrite lookup_singleton_ne.
Qed.

Lemma truthy_nonempty `{Engine} (s : string) : s <> "" -> truthy (VStr s) = true.
Proof. intros Hs. simpl. by apply String.eqb_neq in Hs as ->. Qed.

(** C7, evaluated on the code. When the child cannot be spawned, runCli
    resolves with success false, an empty stdout and the message of the
    operating system as stderr. The handler then parses the empty stdout,
    which throws, so for every tool the response is Error: followed by
    the message of that parse error: the message of the operating
    system does not reach the response. *)
Theorem launch_failure_reported_as_parse_fault `{Engine}
    (env : environment) (os_message path : string) (output : list chunk) :
  path <> "" ->
  let spawn := fun (_ : string) (_ : list (value number)) =>
                 Ok {| emitted := output; ended := ErrorEvent os_message |} in
  (forall argv,
      runCli env spawn argv
      = ([argv], Ok {| success := false; stdout := ""; stderr := os_message |}))
  /\ Forall
       (fun name =>
          (handler env spawn name (Some {[ "path" := VStr path ]})).2
          = text_response ("Error: " +:+ fault_message (JsonSyntaxError "")))
       TOOL_NAMES.
Proof.
  intros Hpath spawn. split; [reflexivity|].
  pose proof (truthy_nonempty path Hpath) as Htruthy.
  assert (Hresolve : resolvePath env (VStr path) = Ok (VStr path)).
  { unfold resolvePath. by rewrite Htruthy. }
  unfold TOOL_NAMES.
  repeat (apply List.Forall_cons; [|]); [..|apply List.Forall_nil].
  all: unfold handler, handler_try; repeat (case_decide; [|done]); try done.
  all: unfold compile_remember, compile_recall, compile_list, compile_stats,
         push_if_set, push_stringified, push_tags.
  all: rewrite ?arg_singleton; simpl; rewrite ?Hresolve, ?Htruthy; simpl.
  all: unfold render_remember, render_recall, render_list, render_stats, render_create, parse;
    simpl in *; rewrite ?Htruthy; simpl; by rewrite JSON_parse_empty.
Qed.

(** With Node, a missing binary (spawn memvid ENOENT) is answered with
    the message of JSON.parse on the empty string. *)
Lemma launch_failure_enoent :
  Forall
    (fun name =>
       (handler (H:=node) {| MEMVID_DEFAULT_PATH := None; MEMVID_CLI_PATH := None |}
          (fun _ _ => Ok {| emitted := []; ended := ErrorEvent "spawn memvid ENOENT" |})
          name (Some {[ "path" := VStr "/m.mv2" ]})).2
       = text_response "Error: Unexpected end of JSON input")
    TOOL_NAMES.
Proof.
  refine (proj2 (launch_failure_reported_as_parse_fault (H:=node)
                   {| MEMVID_DEFAULT_PATH := None; MEMVID_CLI_PATH := None |}
                   "spawn memvid ENOENT" "/m.mv2" [] _)).
  discriminate.
Defined.

(** ** The failure boundary *)

Lemma text_only_ok (t : string) : text_only (Ok (text_response t)).
Proof. by exists t. Qed.

Lemma text_only_bind {A : Type} (m : result A) (f : A -> result response) :
  (forall a, text_only (f a)) -> text_only (m ≫= f).
Proof. intros Hf. destruct m as [a|e]; simpl; [apply Hf|done]. Qed.

Ltac text_only_steps :=
  repeat first
    [ apply text_only_ok
    | apply text_only_bind; intros ?
    | match goal with
      | |- text_only (if ?b then _ else _) => destruct b
      end ].

Section Boundary.

Context `{Engine}.
Variable env : environment.
Variable spawn : string -> list (value number) -> result child_run.

Lemma render_remember_text_only (r : CliResult) : text_only (render_remember r).
Proof. unfold render_remember. text_only_steps. Qed.

Lemma render_recall_text_only (r : CliResult) : text_only (render_recall r).
Proof. unfold render_recall. text_only_steps. Qed.

Lemma render_list_text_only (r : CliResult) : text_only (render_list r).
Proof. unfold render_list. text_only_steps. Qed.

Lemma render_stats_text_only (r : CliResult) : text_only (render_stats r).
Proof. unfold render_stats. text_only_steps. Qed.

Lemma render_create_text_only (r : CliResult) : text_only (render_create r).
Proof. unfold render_create. text_only_steps. Qed.

(** Compile, run, render: whatever the three stages do, a response that
    comes out of them is one a renderer made. *)
Lemma pipeline_text_only (compiled : result (list (value number)))
    (render : CliResult -> result response) :
  (forall r, text_only (render r)) ->
  text_only (pure compiled ≫= fun cliArgs => runCli env spawn cliArgs ≫= fun r => pure (render r)).2.
Proof.
  intros Hrender. destruct compiled as [cliArgs|e]; simpl; [|done].
  destruct (spawn (CLI_PATH env) cliArgs) as [run|e]; simpl; [|done].
  apply Hrender.
Qed.

Lemma handler_try_text_only (name : string) (args : option (gmap string (value number))) :
  text_only (handler_try env spawn name args).2.
Proof.
  unfold handler_try.
  repeat case_decide.
  - apply (pipeline_text_only (compile_remember env args)), render_remember_text_only.
  - apply (pipeline_text_only (compile_recall env args)), render_recall_text_only.
  - apply (pipeline_text_only (compile_list env args)), render_list_text_only.
  - apply (pipeline_text_only (compile_stats env args)), render_stats_text_only.
  - destruct (negb (truthy (arg args "path"))); simpl; [apply text_only_ok|].
    destruct (spawn (CLI_PATH env) _) as [run|e]; simpl; [|done].
    apply render_create_text_only.
  - apply text_only_ok.
Qed.

End Boundary.

(** Over children that end. For every tool name and every argument bag,
    whatever the engine, the environment and the operating system do,
    the handler returns one response whose content is exactly one block
    of type text; a response of the try block is the answer, and when the
    try block throws the text of the answer is Error: followed by the
    message of what was thrown. *)
Theorem handler_answers_with_one_text_block `{Engine}
    (env : environment) (spawn : string -> list (value number) -> result child_run)
    (name : string) (args : option (gmap string (value number))) :
  exists t : string,
    (handler env spawn name args).2 = {| content := [ {| type := "text"; text := t |} ] |}
    /\ (handler env spawn name args).1 = (handler_try env spawn name args).1
    /\ match (handler_try env spawn name args).2 with
       | Ok r => r = {| content := [ {| type := "text"; text := t |} ] |}
       | Throw e => t = "Error: " +:+ error_message e
       end.
Proof.
  pose proof (handler_try_text_only env spawn name args) as Htext.
  unfold handler.
  destruct (handler_try env spawn name args) as [spawned [r|e]]; simpl in *.
  - destruct Htext as [t ->]. by exists t.
  - by eexists.
Qed.

(** One fault from each stage, with Node: no path to resolve; a limit
    that has no string conversion; a spawn that throws; output that is
    not JSON; a parsed document without the hits to iterate. *)
Lemma handler_fault_examples :
  let bare := {| MEMVID_DEFAULT_PATH := None; MEMVID_CLI_PATH := None |} in
  let configured := {| MEMVID_DEFAULT_PATH := Some "/m.mv2"; MEMVID_CLI_PATH := None |} in
  let prints (out : string) : string -> list (value number) -> result child_run :=
    fun _ _ => Ok {| emitted := [StdoutData out]; ended := Close (Some 0) |} in
  handler (H:=node) bare (prints "{}") "memory_stats" None
  = ([], text_response
           "Error: No memory file path provided. Set MEMVID_DEFAULT_PATH or provide 'path' parameter.")
  /\ handler (H:=node) configured (prints "{}") "memory_list"
       (Some {[ "limit" := VObj {[ "toString" := VNull ]} ]})
     = ([], text_response "Error: Cannot convert object to primitive value")
  /\ handler (H:=node) configured
       (fun _ _ => Throw (Fault (SpawnRejected "spawn EINVAL"))) "memory_stats" None
     = ([[VStr "stats"; VStr "/m.mv2"]], text_response "Error: spawn EINVAL")
  /\ handler (H:=node) configured (prints "") "memory_stats" None
     = ([[VStr "stats"; VStr "/m.mv2"]], text_response "Error: Unexpected end of JSON input")
  /\ handler (H:=node) configured (prints "{}") "memory_recall" (Some {[ "query" := VStr "q" ]})
     = ([[VStr "search"; VStr "/m.mv2"; VStr "q"]],
        text_response "Error: data.hits is not iterable").
Proof. repeat split; by vm_compute. Qed.

(** * Further properties of the gateway *)

(** ** Strings *)

Lemma str_app_cons (c : Ascii.ascii) (s t : string) : String c s +:+ t = String c (s +:+ t).
Proof. reflexivity. Qed.

Lemma str_app_nil_l (s : string) : "" +:+ s = s.
Proof. reflexivity. Qed.

Lemma str_app_nil_r (s : string) : s +:+ "" = s.
Proof. induction s as [|c s IH]; [done|]. by rewrite str_app_cons, IH. Qed.

Lemma str_app_assoc (a b c : string) : (a +:+ b) +:+ c = a +:+ (b +:+ c).
Proof. induction a as [|x a IH]; [done|]. by rewrite !str_app_cons, IH. Qed.

(** ** runCli *)

Lemma collect_from (emitted : list chunk) (out err : string) :
  fold_left
    (fun acc c =>
       match c with
       | StdoutData data => (acc.1 +:+ data, acc.2)
       | StderrData data => (acc.1, acc.2 +:+ data)
       end)
    emitted (out, err)
  = (out +:+ written_to_stdout emitted, err +:+ written_to_stderr emitted).
Proof.
  revert out err. induction emitted as [|[data|data] rest IH]; intros out err; simpl.
  - by rewrite !str_app_nil_r.
  - rewrite IH. by rewrite str_app_assoc.
  - rewrite IH. by rewrite str_app_assoc.
Qed.

Lemma collect_written (emitted : list chunk) :
  collect emitted = (written_to_stdout emitted, written_to_stderr emitted).
Proof. unfold collect. by rewrite collect_from. Qed.

(** X1. When the child closes, runCli spawns once with the vector it was
    given and resolves with: success exactly when the exit code is 0 (a
    null code, for a child killed by a signal, is a failure); as stdout
    the data written to stdout, concatenated in order and trimmed; as
    stderr the same for stderr. How the chunks of the two streams
    interleave makes no difference. *)
Theorem runCli_close_collects_each_stream `{Engine}
    (env : environment) (spawn : string -> list (value number) -> result child_run)
    (args : list (value number)) (emitted : list chunk) (code : option Z) :
  spawn (CLI_PATH env) args = Ok {| emitted := emitted; ended := Close code |} ->
  exists r : CliResult,
    runCli env spawn args = ([args], Ok r)
    /\ (success r = true <-> code = Some 0)
    /\ stdout r = trim (written_to_stdout emitted)
    /\ stderr r = trim (written_to_stderr emitted).
Proof.
  intros Hspawn. unfold runCli. rewrite Hspawn. simpl.
  eexists. split; [reflexivity|]. unfold settle. simpl.
  rewrite collect_written. simpl.
  split; [apply bool_decide_eq_true|done].
Qed.

(** Two chunks of JSON with a warning in between, exit code 0. *)
Lemma runCli_close_example :
  exists r : CliResult,
    runCli (H:=node) {| MEMVID_DEFAULT_PATH := None; MEMVID_CLI_PATH := None |}
      (fun _ _ => Ok {| emitted := [StdoutData "{"; StderrData "warn "; StdoutData "} "];
                        ended := Close (Some 0) |})
      [VStr "stats"; VStr "/m.mv2"]
    = ([[VStr "stats"; VStr "/m.mv2"]], Ok r)
    /\ (success r = true <-> Some 0 = Some 0)
    /\ stdout r = "{}"
    /\ stderr r = "warn".
Proof.
  exact (runCli_close_collects_each_stream (H:=node) _ _ _
           [StdoutData "{"; StderrData "warn "; StdoutData "} "] (Some 0) eq_refl).
Defined.

(** ** What the handler spawns *)

Section Spawns.

Context `{Engine}.
Variable env : environment.
Variable spawn : string -> list (value number) -> result child_run.

Lemma resolvePath_truthy (inputPath memPath : value number) :
  resolvePath env inputPath = Ok memPath -> truthy memPath = true.
Proof.
  unfold resolvePath. destruct (truthy inputPath) eqn:Hinput.
  - by intros [= <-].
  - destruct (negb (String.eqb (DEFAULT_MEMORY_PATH env) "")) eqn:Hdefault; [|done].
    by intros [= <-].
Qed.

Lemma resolvePath_explicit (inputPath : value number) :
  truthy inputPath = true -> resolvePath env inputPath = Ok inputPath.
Proof. intros Hinput. unfold resolvePath. by rewrite Hinput. Qed.

Lemma resolvePath_nothing (inputPath : value number) :
  truthy inputPath = false -> DEFAULT_MEMORY_PATH env = "" ->
  resolvePath env inputPath = Throw (Error NO_PATH_MESSAGE).
Proof. intros Hinput Hdefault. unfold resolvePath. by rewrite Hinput, Hdefault. Qed.

Lemma push_tags_tag_pairs (args : option (gmap string (value number)))
    (cliArgs : list (value number)) :
  push_tags args cliArgs = cliArgs ++ tag_pairs (arg args "tags").
Proof.
  destruct (arg args "tags") as [| |b|n|s|tags|props] eqn:Htags;
    try (rewrite push_tags_not_array by (by rewrite Htags); simpl; by rewrite app_nil_r).
  by apply push_tags_array.
Qed.

(** The log and the outcome of compile, run, render. *)
Lemma pipeline_run (compiled : result (list (value number)))
    (render : CliResult -> result response) :
  (pure compiled ≫= fun cliArgs => runCli env spawn cliArgs ≫= fun r => pure (render r))
  = match compiled with
    | Ok cliArgs =>
        ([cliArgs], run ← spawn (CLI_PATH env) cliArgs; render (settle run))
    | Throw e => ([], Throw e)
    end.
Proof.
  destruct compiled as [cliArgs|e]; [|done]. simpl.
  by destruct (spawn (CLI_PATH env) cliArgs).
Qed.

Lemma handler_log (name : string) (args : option (gmap string (value number))) :
  (handler env spawn name args).1 = (handler_try env spawn name args).1.
Proof. unfold handler. by destruct (handler_try env spawn name args) as [log [r|e]]. Qed.

Lemma compile_remember_started (args : option (gmap string (value number))) cliArgs :
  compile_remember env args = Ok cliArgs -> well_started "put" cliArgs.
Proof.
  rewrite compile_remember_split.
  destruct (resolvePath env (arg args "path")) as [memPath|e] eqn:Hpath; [simpl|done].
  intros [= <-]. rewrite push_tags_tag_pairs, !push_if_set_flag_pair.
  eexists _, _. split; [by rewrite <- !app_assoc|]. by eapply resolvePath_truthy.
Qed.

Lemma compile_recall_started (args : option (gmap string (value number))) cliArgs :
  compile_recall env args = Ok cliArgs -> well_started "search" cliArgs.
Proof.
  unfold compile_recall.
  destruct (resolvePath env (arg args "path")) as [memPath|e] eqn:Hpath; [simpl|done].
  rewrite push_stringified_flag_pair, push_if_set_flag_pair.
  destruct (stringified (arg args "limit")) as [limit|e]; [simpl|done].
  intros [= <-]. eexists _, _. split; [done|]. by eapply resolvePath_truthy.
Qed.

Lemma compile_list_started (args : option (gmap string (value number))) cliArgs :
  compile_list env args = Ok cliArgs -> well_started "timeline" cliArgs.
Proof.
  unfold compile_list.
  destruct (resolvePath env (arg args "path")) as [memPath|e] eqn:Hpath; [simpl|done].
  rewrite push_stringified_flag_pair.
  destruct (stringified (arg args "limit")) as [limit|e]; [simpl|done].
  rewrite push_stringified_flag_pair.
  destruct (stringified (arg args "since")) as [since|e]; [simpl|done].
  rewrite push_stringified_flag_pair.
  destruct (stringified (arg args "until")) as [until|e]; [simpl|done].
  intros [= <-]. eexists _, _. split; [done|]. by eapply resolvePath_truthy.
Qed.

Lemma compile_stats_started (args : option (gmap string (value number))) cliArgs :
  compile_stats env args = Ok cliArgs -> well_started "stats" cliArgs.
Proof.
  unfold compile_stats.
  destruct (resolvePath env (arg args "path")) as [memPath|e] eqn:Hpath; [simpl|done].
  intros [= <-]. eexists _, _. split; [done|]. by eapply resolvePath_truthy.
Qed.

Lemma pipeline_spawns (name sub : string) (compiled : result (list (value number)))
    (render : CliResult -> result response) :
  (name, sub) ∈ SUBCOMMANDS ->
  (forall cliArgs, compiled = Ok cliArgs -> well_started sub cliArgs) ->
  (pure compiled ≫= fun cliArgs => runCli env spawn cliArgs ≫= fun r => pure (render r)).1 = []
  \/ exists (sub : string) (path : value number) (rest : list (value number)),
      (pure compiled ≫= fun cliArgs => runCli env spawn cliArgs ≫= fun r => pure (render r)).1
      = [VStr sub :: path :: rest]
      /\ truthy path = true /\ (name, sub) ∈ SUBCOMMANDS.
Proof.
  intros Hsub Hstarted. rewrite pipeline_run.
  destruct compiled as [cliArgs|e]; [|by left].
  destruct (Hstarted cliArgs eq_refl) as (path & rest & -> & Hpath).
  right. by exists sub, path, rest.
Qed.

End Spawns.

(** X3. A call spawns the CLI at most once, and never without a path:
    whatever the name and the bag, either nothing is spawned, or exactly
    one vector is, whose first element is the subcommand of the named
    tool and whose second element is a truthy path. *)
Theorem handler_spawns_at_most_once_with_a_path `{Engine}
    (env : environment) (spawn : string -> list (value number) -> result child_run)
    (name : string) (args : option (gmap string (value number))) :
  (handler env spawn name args).1 = []
  \/ exists (sub : string) (path : value number) (rest : list (value number)),
      (handler env spawn name args).1 = [VStr sub :: path :: rest]
      /\ truthy path = true
      /\ (name, sub) ∈ SUBCOMMANDS.
Proof.
  rewrite handler_log. unfold handler_try.
  pose proof (pipeline_spawns env spawn name) as Hpipeline.
  assert (Hsub : Forall (fun entry => entry ∈ SUBCOMMANDS) SUBCOMMANDS).
  { apply Forall_forall. by intros entry Hentry. }
  unfold SUBCOMMANDS in Hsub at 2.
  apply Forall_cons in Hsub as [Hput Hsub]. apply Forall_cons in Hsub as [Hsearch Hsub].
  apply Forall_cons in Hsub as [Htimeline Hsub]. apply Forall_cons in Hsub as [Hstats Hsub].
  apply Forall_cons in Hsub as [Hcreate _].
  repeat case_decide; subst.
  - apply (Hpipeline "put"); [done|apply compile_remember_started].
  - apply (Hpipeline "search"); [done|apply compile_recall_started].
  - apply (Hpipeline "timeline"); [done|apply compile_list_started].
  - apply (Hpipeline "stats"); [done|apply compile_stats_started].
  - destruct (truthy (arg args "path")) eqn:Hpath; simpl; [|by left].
    right. exists "create", (arg args "path"), [].
    split; [|by split].
    by destruct (spawn (CLI_PATH env) _).
  - by left.
Qed.

(** X4. For the four tools that resolve a path, a call with no truthy
    path argument and no configured default is answered with the
    configuration error before anything is spawned. *)
Theorem no_path_is_reported_before_any_spawn `{Engine}
    (env : environment) (spawn : string -> list (value number) -> result child_run)
    (name : string) (args : option (gmap string (value number))) :
  name ∈ PATH_TOOLS ->
  truthy (arg args "path") = false ->
  DEFAULT_MEMORY_PATH env = "" ->
  handler env spawn name args = ([], text_response ("Error: " +:+ NO_PATH_MESSAGE)).
Proof.
  intros Hname Hpath Hdefault.
  pose proof (resolvePath_nothing env _ Hpath Hdefault) as Hresolve.
  unfold PATH_TOOLS in Hname.
  repeat (apply elem_of_cons in Hname as [->|Hname]);
    [..|by apply elem_of_nil in Hname].
  all: unfold handler, handler_try; repeat (case_decide; [|done]); try done.
  all: unfold compile_remember, compile_recall, compile_list, compile_stats;
    by rewrite Hresolve.
Qed.

Lemma no_path_example :
  Forall
    (fun name =>
       handler (H:=node) {| MEMVID_DEFAULT_PATH := Some ""; MEMVID_CLI_PATH := None |}
         (fun _ _ => Ok {| emitted := [StdoutData "{}"]; ended := Close (Some 0) |})
         name (Some {[ "path" := VStr ""; "query" := VStr "q" ]})
       = ([], text_response
                "Error: No memory file path provided. Set MEMVID_DEFAULT_PATH or provide 'path' parameter."))
    PATH_TOOLS.
Proof.
  apply Forall_forall. intros name Hname.
  exact (no_path_is_reported_before_any_spawn (H:=node)
           {| MEMVID_DEFAULT_PATH := Some ""; MEMVID_CLI_PATH := None |} _ name
           (Some {[ "path" := VStr ""; "query" := VStr "q" ]}) Hname eq_refl eq_refl).
Defined.

(** X5. memory_create takes its path from the bag alone: without a truthy
    path it answers Error: path is required and spawns nothing, even when
    a default path is configured; with one it spawns exactly create path,
    whatever the default is. *)
Theorem memory_create_never_uses_the_default `{Engine}
    (env : environment) (spawn : string -> list (value number) -> result child_run)
    (args : option (gmap string (value number))) :
  (truthy (arg args "path") = false ->
   handler env spawn "memory_create" args = ([], text_response "Error: path is required"))
  /\ (truthy (arg args "path") = true ->
      (handler env spawn "memory_create" args).1 = [[VStr "create"; arg args "path"]]).
Proof.
  split; intros Hpath.
  - unfold handler, handler_try. repeat (case_decide; [done|]).
    case_decide; [|done]. by rewrite Hpath.
  - rewrite handler_log. unfold handler_try. repeat (case_decide; [done|]).
    case_decide; [|done]. rewrite Hpath. simpl.
    by destruct (spawn (CLI_PATH env) _).
Qed.

Lemma memory_create_example :
  let env := {| MEMVID_DEFAULT_PATH := Some "/default.mv2"; MEMVID_CLI_PATH := None |} in
  let spawn : string -> list (value number) -> result child_run :=
    fun _ _ => Ok {| emitted := [StdoutData "{}"]; ended := Close (Some 0) |} in
  handler (H:=node) env spawn "memory_create" None
  = ([], text_response "Error: path is required")
  /\ (handler (H:=node) env spawn "memory_create" (Some {[ "path" := VStr "/new.mv2" ]})).1
     = [[VStr "create"; VStr "/new.mv2"]].
Proof.
  split.
  - exact (proj1 (memory_create_never_uses_the_default (H:=node) _ _ None) eq_refl).
  - exact (proj2 (memory_create_never_uses_the_default (H:=node) _ _
                    (Some {[ "path" := VStr "/new.mv2" ]})) eq_refl).
Defined.

(** ** The bag and the schema *)

Lemma agree_on_declared `{Engine} (t : tool) (a b : option (gmap string (value number)))
    (key : string) :
  (forall key, key ∈ property_names t -> arg a key = arg b key) ->
  bool_decide (key ∈ property_names t) = true ->
  arg a key = arg b key.
Proof. intros Hsame Hkey. apply Hsame. by apply bool_decide_eq_true in Hkey. Qed.

(** X6. The handler reads no argument a tool's schema does not declare:
    for each tool of the registry, two bags that agree on the properties
    its schema declares are answered alike, spawned vectors included.
    Undeclared keys are ignored. *)
Theorem handler_reads_declared_properties_only `{Engine}
    (env : environment) (spawn : string -> list (value number) -> result child_run) :
  Forall
    (fun t =>
       forall a b : option (gmap string (value number)),
         (forall key, key ∈ property_names t -> arg a key = arg b key) ->
         handler env spawn (name t) a = handler env spawn (name t) b)
    TOOLS.
Proof.
  unfold TOOLS.
  repeat (apply List.Forall_cons; [|]); [..|apply List.Forall_nil].
  all: intros a b Hsame.
  all: pose proof (fun key => agree_on_declared _ a b key Hsame) as Hkey.
  all: unfold handler, handler_try; simpl name;
    repeat (case_decide; [|done]); try done.
  all: unfold compile_remember, compile_recall, compile_list, compile_stats,
         push_if_set, push_stringified, push_tags.
  all: try rewrite (Hkey "path" eq_refl); try rewrite (Hkey "content" eq_refl);
    try rewrite (Hkey "uri" eq_refl); try rewrite (Hkey "title" eq_refl);
    try rewrite (Hkey "tags" eq_refl); try rewrite (Hkey "query" eq_refl);
    try rewrite (Hkey "scope" eq_refl); try rewrite (Hkey "limit" eq_refl);
    try rewrite (Hkey "since" eq_refl); try rewrite (Hkey "until" eq_refl).
  all: reflexivity.
Qed.

(** X11. The vector of memory_remember is put and the resolved path, then
    the pairs --content, --uri and --title, in that order and each if and
    only if its argument is truthy (an empty content contributes nothing),
    then one -t pair per element of an array of tags. It fails only when
    the path does not resolve. *)
Theorem compile_remember_vector `{Engine}
    (env : environment) (args : option (gmap string (value number))) :
  compile_remember env args
  = (memPath ← resolvePath env (arg args "path");
     Ok ([VStr "put"; memPath]
         ++ flag_pair "--content" (arg args "content") (arg args "content")
         ++ flag_pair "--uri" (arg args "uri") (arg args "uri")
         ++ flag_pair "--title" (arg args "title") (arg args "title")
         ++ tag_pairs (arg args "tags"))).
Proof.
  rewrite compile_remember_split.
  destruct (resolvePath env (arg args "path")) as [memPath|e]; [simpl|done].
  rewrite push_tags_tag_pairs, !push_if_set_flag_pair.
  by rewrite <- ?app_assoc.
Qed.

(** An empty content and a title: no --content pair. *)
Lemma compile_remember_empty_content :
  compile_remember (H:=node) {| MEMVID_DEFAULT_PATH := Some "/m.mv2"; MEMVID_CLI_PATH := None |}
    (Some {[ "content" := VStr ""; "title" := VStr "t"; "tags" := VArr [VStr "a"; VStr "a"] ]})
  = Ok [VStr "put"; VStr "/m.mv2"; VStr "--title"; VStr "t";
        VStr "-t"; VStr "a"; VStr "-t"; VStr "a"].
Proof.
  refine (eq_trans (compile_remember_vector (H:=node) _ _) _).
  by vm_compute.
Defined.

(** ** Paths and binaries *)

(** X9. An explicit path makes the default irrelevant for every tool:
    with a truthy path argument, two environments that name the same
    binary give the same answer and the same spawned vector, whatever
    their default paths are. *)
Theorem explicit_path_overrides_any_default `{Engine}
    (env env' : environment) (spawn : string -> list (value number) -> result child_run)
    (name : string) (args : option (gmap string (value number))) :
  truthy (arg args "path") = true ->
  CLI_PATH env = CLI_PATH env' ->
  handler env spawn name args = handler env' spawn name args.
Proof.
  intros Hpath Hcli.
  assert (Hresolve : resolvePath env (arg args "path") = resolvePath env' (arg args "path")).
  { by rewrite !resolvePath_explicit. }
  assert (Hremember : compile_remember env args = compile_remember env' args).
  { unfold compile_remember. by rewrite Hresolve. }
  assert (Hrecall : compile_recall env args = compile_recall env' args).
  { unfold compile_recall. by rewrite Hresolve. }
  assert (Hlist : compile_list env args = compile_list env' args).
  { unfold compile_list. by rewrite Hresolve. }
  assert (Hstats : compile_stats env args = compile_stats env' args).
  { unfold compile_stats. by rewrite Hresolve. }
  unfold handler, handler_try.
  repeat case_decide; try done.
  all: rewrite ?pipeline_run, ?Hremember, ?Hrecall, ?Hlist, ?Hstats, ?Hcli; try done.
  unfold runCli. by rewrite Hcli.
Qed.

Lemma explicit_path_example :
  let spawn : string -> list (value number) -> result child_run :=
    fun _ _ => Ok {| emitted := [StdoutData FRAME_42]; ended := Close (Some 0) |} in
  let args : option (gmap string (value number)) :=
    Some {[ "path" := VStr "/custom/path.mv2"; "content" := VStr "x" ]} in
  handler (H:=node) {| MEMVID_DEFAULT_PATH := Some "/default/path.mv2"; MEMVID_CLI_PATH := None |}
    spawn "memory_remember" args
  = handler (H:=node) {| MEMVID_DEFAULT_PATH := None; MEMVID_CLI_PATH := Some "" |}
      spawn "memory_remember" args.
Proof.
  exact (explicit_path_overrides_any_default (H:=node)
           {| MEMVID_DEFAULT_PATH := Some "/default/path.mv2"; MEMVID_CLI_PATH := None |}
           {| MEMVID_DEFAULT_PATH := None; MEMVID_CLI_PATH := Some "" |}
           _ "memory_remember"
           (Some {[ "path" := VStr "/custom/path.mv2"; "content" := VStr "x" ]})
           eq_refl eq_refl).
Defined.

(** X10. The only binary a call runs is the configured one. When
    MEMVID_CLI_PATH is set and not empty, CLI_PATH is that value and the
    answer depends on the operating system only through what spawning
    that value does; when it is unset or empty, the same holds of memvid.
    CLI_PATH is never the empty string. *)
Theorem handler_runs_only_CLI_PATH `{Engine}
    (env : environment) (spawn spawn' : string -> list (value number) -> result child_run)
    (name : string) (args : option (gmap string (value number))) :
  (forall binary : string,
      MEMVID_CLI_PATH env = Some binary -> binary <> "" ->
      CLI_PATH env = binary
      /\ ((forall cliArgs, spawn binary cliArgs = spawn' binary cliArgs) ->
          handler env spawn name args = handler env spawn' name args))
  /\ (MEMVID_CLI_PATH env = None \/ MEMVID_CLI_PATH env = Some "" ->
      CLI_PATH env = "memvid"
      /\ ((forall cliArgs, spawn "memvid" cliArgs = spawn' "memvid" cliArgs) ->
          handler env spawn name args = handler env spawn' name args))
  /\ CLI_PATH env <> "".
Proof.
  assert (Honly : (forall cliArgs, spawn (CLI_PATH env) cliArgs = spawn' (CLI_PATH env) cliArgs) ->
                  handler env spawn name args = handler env spawn' name args).
  { intros Hsame. unfold handler, handler_try.
    repeat case_decide; try done.
    1-4: rewrite !pipeline_run;
      match goal with |- context [match ?compiled with _ => _ end] =>
        destruct compiled as [cliArgs|e]; [by rewrite Hsame|done]
      end.
    destruct (negb (truthy (arg args "path"))); [done|].
    unfold runCli. by rewrite Hsame. }
  split; [|split].
  - intros binary Hset Hne.
    assert (Hbinary : CLI_PATH env = binary).
    { unfold CLI_PATH, env_or. rewrite Hset. by apply String.eqb_neq in Hne as ->. }
    split; [done|]. by rewrite <- Hbinary.
  - intros Hunset.
    assert (Hbinary : CLI_PATH env = "memvid").
    { unfold CLI_PATH, env_or. by destruct Hunset as [-> | ->]. }
    split; [done|]. by rewrite <- Hbinary.
  - unfold CLI_PATH, env_or. destruct (MEMVID_CLI_PATH env) as [s|]; [|done].
    destruct (String.eqb s "") eqn:Hs; [done|]. by apply String.eqb_neq.
Qed.

(** With MEMVID_CLI_PATH set to /opt/memvid, an operating system on which
    every other binary fails to spawn answers as one on which every
    binary runs; with it unset, the binary is memvid. *)
Lemma handler_runs_only_CLI_PATH_example :
  let run := {| emitted := [StdoutData FRAME_42]; ended := Close (Some 0) |} in
  let only (binary : string) : string -> list (value number) -> result child_run :=
    fun file _ => if String.eqb file binary then Ok run
                  else Throw (Fault (SpawnRejected "another binary")) in
  (CLI_PATH {| MEMVID_DEFAULT_PATH := Some "/m.mv2"; MEMVID_CLI_PATH := Some "/opt/memvid" |}
   = "/opt/memvid"
   /\ handler (H:=node)
        {| MEMVID_DEFAULT_PATH := Some "/m.mv2"; MEMVID_CLI_PATH := Some "/opt/memvid" |}
        (fun _ _ => Ok run) "memory_remember" None
      = handler (H:=node)
          {| MEMVID_DEFAULT_PATH := Some "/m.mv2"; MEMVID_CLI_PATH := Some "/opt/memvid" |}
          (only "/opt/memvid") "memory_remember" None)
  /\ (CLI_PATH {| MEMVID_DEFAULT_PATH := Some "/m.mv2"; MEMVID_CLI_PATH := None |} = "memvid"
      /\ handler (H:=node) {| MEMVID_DEFAULT_PATH := Some "/m.mv2"; MEMVID_CLI_PATH := None |}
           (fun _ _ => Ok run) "memory_remember" None
         = handler (H:=node) {| MEMVID_DEFAULT_PATH := Some "/m.mv2"; MEMVID_CLI_PATH := None |}
             (only "memvid") "memory_remember" None).
Proof.
  intros run only. split.
  - destruct (proj1 (handler_runs_only_CLI_PATH (H:=node)
                       {| MEMVID_DEFAULT_PATH := Some "/m.mv2";
                          MEMVID_CLI_PATH := Some "/opt/memvid" |}
                       (fun _ _ => Ok run) (only "/opt/memvid") "memory_remember" None)
                "/opt/memvid" eq_refl ltac:(discriminate)) as [Hbinary Hsame].
    split; [exact Hbinary|]. apply Hsame. by intros cliArgs.
  - destruct (proj1 (proj2 (handler_runs_only_CLI_PATH (H:=node)
                       {| MEMVID_DEFAULT_PATH := Some "/m.mv2"; MEMVID_CLI_PATH := None |}
                       (fun _ _ => Ok run) (only "memvid") "memory_remember" None))
                (or_introl eq_refl)) as [Hbinary Hsame].
    split; [exact Hbinary|]. apply Hsame. by intros cliArgs.
Defined.

(** ** Failed runs and unreadable output *)

Section Failures.

Context `{Engine}.

Lemma render_unparseable (r : CliResult) :
  JSON_parse (stdout r) = None ->
  Forall (fun render => render r = Throw (Fault (JsonSyntaxError (stdout r)))) renderers.
Proof.
  intros Hparse. unfold renderers.
  repeat (apply List.Forall_cons; [|]); [..|apply List.Forall_nil].
  all: unfold render_remember, render_recall, render_list, render_stats, render_create, parse.
  all: by rewrite Hparse.
Qed.

Lemma failure_text_reports (data : value number) (r : CliResult) (t : string) :
  failure_text data r = Ok t -> exists s, t = "Error: " +:+ s.
Proof.
  unfold failure_text.
  destruct (get data "error") as [error|e]; [simpl|done].
  destruct (to_string (or_else error (VStr (stderr r)))) as [s|e]; [simpl|done].
  intros [= <-]. by exists s.
Qed.

Lemma render_failed (r : CliResult) :
  success r = false ->
  Forall
    (fun render =>
       render r = (data ← parse (stdout r);
                   text ← failure_text data r;
                   Ok (text_response text)))
    renderers.
Proof.
  intros Hfailed. unfold renderers.
  repeat (apply List.Forall_cons; [|]); [..|apply List.Forall_nil].
  all: unfold render_remember, render_recall, render_list, render_stats, render_create.
  all: by rewrite Hfailed.
Qed.

Lemma render_failed_reports (r : CliResult) :
  success r = false ->
  Forall (fun render => forall resp, render r = Ok resp -> reports_error resp) renderers.
Proof.
  intros Hfailed. eapply Forall_impl; [exact (render_failed r Hfailed)|].
  intros render -> resp.
  destruct (parse (stdout r)) as [data|e]; [simpl|done].
  destruct (failure_text data r) as [t|e] eqn:Ht; [simpl|done].
  intros [= <-]. apply failure_text_reports in Ht as [s ->]. by exists s.
Qed.

(** The answer of the handler after compile, run, render. *)
Lemma pipeline_answer (env : environment)
    (spawn : string -> list (value number) -> result child_run)
    (compiled : result (list (value number))) (render : CliResult -> result response) :
  match
    pure compiled ≫= fun cliArgs => runCli env spawn cliArgs ≫= fun r => pure (render r)
  with
  | (spawned, Ok r) => (spawned, r)
  | (spawned, Throw error) => (spawned, text_response ("Error: " +:+ error_message error))
  end
  = match compiled with
    | Ok cliArgs =>
        ([cliArgs],
         match run ← spawn (CLI_PATH env) cliArgs; render (settle run) with
         | Ok r => r
         | Throw error => text_response ("Error: " +:+ error_message error)
         end)
    | Throw error => ([], text_response ("Error: " +:+ error_message error))
    end.
Proof.
  rewrite pipeline_run. destruct compiled as [cliArgs|e]; [|done].
  by destruct (spawn (CLI_PATH env) cliArgs ≫= _).
Qed.

Lemma run_answer (env : environment)
    (spawn : string -> list (value number) -> result child_run)
    (cliArgs : list (value number)) (render : CliResult -> result response) :
  match runCli env spawn cliArgs ≫= fun r => pure (render r) with
  | (spawned, Ok r) => (spawned, r)
  | (spawned, Throw error) => (spawned, text_response ("Error: " +:+ error_message error))
  end
  = ([cliArgs],
     match run ← spawn (CLI_PATH env) cliArgs; render (settle run) with
     | Ok r => r
     | Throw error => text_response ("Error: " +:+ error_message error)
     end).
Proof.
  unfold runCli. destruct (spawn (CLI_PATH env) cliArgs) as [run|e]; simpl; [|done].
  by destruct (render (settle run)).
Qed.

End Failures.

(** X7. Output that is not JSON is an error whatever the exit code: when
    a call of a registered tool has spawned the CLI, the child has run to
    its end, and the captured stdout does not parse, the answer is Error:
    followed by the message of the parse error, for a child that exited
    with 0 as for any other. *)
Theorem unparseable_output_is_reported `{Engine}
    (env : environment) (spawn : string -> list (value number) -> result child_run)
    (name : string) (args : option (gmap string (value number)))
    (cliArgs : list (value number)) (run : child_run) :
  (handler env spawn name args).1 = [cliArgs] ->
  spawn (CLI_PATH env) cliArgs = Ok run ->
  JSON_parse (stdout (settle run)) = None ->
  (handler env spawn name args).2
  = text_response ("Error: " +:+ fault_message (JsonSyntaxError (stdout (settle run)))).
Proof.
  intros Hlog Hspawn Hparse.
  pose proof (render_unparseable (settle run) Hparse) as Hrender.
  unfold renderers in Hrender.
  apply Forall_cons in Hrender as [Hremember Hrender].
  apply Forall_cons in Hrender as [Hrecall Hrender].
  apply Forall_cons in Hrender as [Hlist Hrender].
  apply Forall_cons in Hrender as [Hstats Hrender].
  apply Forall_cons in Hrender as [Hcreate _].
  revert Hlog. unfold handler, handler_try.
  repeat case_decide.
  1-4: rewrite pipeline_answer;
    match goal with |- context [match ?compiled with _ => _ end] =>
      destruct compiled as [c|e]; simpl; [|done]
    end;
    intros [= ->]; rewrite Hspawn; simpl;
    by rewrite ?Hremember, ?Hrecall, ?Hlist, ?Hstats.
  - destruct (negb (truthy (arg args "path"))); [by simpl|].
    rewrite run_answer. simpl. intros [= <-].
    rewrite Hspawn. simpl. by rewrite Hcreate.
  - done.
Qed.

(** A CLI that prints an empty line and exits with 0. *)
Lemma unparseable_output_example :
  (handler (H:=node) {| MEMVID_DEFAULT_PATH := Some "/m.mv2"; MEMVID_CLI_PATH := None |}
     (fun _ _ => Ok {| emitted := [StdoutData ""; StdoutData LF]; ended := Close (Some 0) |})
     "memory_stats" None).2
  = text_response "Error: Unexpected end of JSON input".
Proof.
  exact (unparseable_output_is_reported (H:=node)
           {| MEMVID_DEFAULT_PATH := Some "/m.mv2"; MEMVID_CLI_PATH := None |}
           (fun _ _ => Ok {| emitted := [StdoutData ""; StdoutData LF]; ended := Close (Some 0) |})
           "memory_stats" None [VStr "stats"; VStr "/m.mv2"]
           {| emitted := [StdoutData ""; StdoutData LF]; ended := Close (Some 0) |}
           eq_refl eq_refl eq_refl).
Defined.

(** X8. A failed run is never answered as a success: if every child the
    operating system can start for this call ends in failure (a non-zero
    or null exit code, or a launch error), the answer of every
    registered tool starts with Error:, whatever the child printed. *)
Theorem failed_run_never_reads_as_success `{Engine}
    (env : environment) (spawn : string -> list (value number) -> result child_run)
    (name : string) (args : option (gmap string (value number))) :
  (forall cliArgs run, spawn (CLI_PATH env) cliArgs = Ok run -> success (settle run) = false) ->
  name ∈ TOOL_NAMES ->
  reports_error (handler env spawn name args).2.
Proof.
  intros Hfail Hname.
  assert (Hthrown : forall e, reports_error (text_response ("Error: " +:+ error_message e))).
  { intros e. by eexists. }
  assert (Hrun : forall (cliArgs : list (value number)) (render : CliResult -> result response),
             render ∈ renderers ->
             reports_error
               match run ← spawn (CLI_PATH env) cliArgs; render (settle run) with
               | Ok r => r
               | Throw error => text_response ("Error: " +:+ error_message error)
               end).
  { intros cliArgs render Hrender.
    destruct (spawn (CLI_PATH env) cliArgs) as [run|e] eqn:Hspawn; simpl; [|done].
    pose proof (render_failed_reports (settle run) (Hfail _ _ Hspawn)) as Hall.
    rewrite Forall_forall in Hall. specialize (Hall render Hrender).
    destruct (render (settle run)) as [resp|e]; [by apply Hall|done]. }
  assert (Hrenderers : Forall (fun render => render ∈ renderers) renderers).
  { apply Forall_forall. by intros render Hrender. }
  unfold renderers in Hrenderers at 2.
  apply Forall_cons in Hrenderers as [Hremember Hrenderers].
  apply Forall_cons in Hrenderers as [Hrecall Hrenderers].
  apply Forall_cons in Hrenderers as [Hlist Hrenderers].
  apply Forall_cons in Hrenderers as [Hstats Hrenderers].
  apply Forall_cons in Hrenderers as [Hcreate _].
  unfold handler, handler_try.
  repeat case_decide.
  1-4: rewrite pipeline_answer;
    match goal with |- context [match ?compiled with _ => _ end] =>
      destruct compiled as [c|e]; simpl; [by apply Hrun|done]
    end.
  - destruct (negb (truthy (arg args "path"))); [simpl; by eexists|].
    rewrite run_answer. by apply Hrun.
  - exfalso. unfold TOOL_NAMES in Hname.
    repeat (apply elem_of_cons in Hname as [->|Hname]; [done|]).
    by apply elem_of_nil in Hname.
Qed.

(** A child that exits with 1 after printing a frame id. *)
Lemma failed_run_example :
  reports_error
    (handler (H:=node) {| MEMVID_DEFAULT_PATH := Some "/m.mv2"; MEMVID_CLI_PATH := None |}
       (fun _ _ => Ok {| emitted := [StdoutData FRAME_42; StderrData "disk full"];
                         ended := Close (Some 1) |})
       "memory_remember" (Some {[ "content" := VStr "x" ]})).2.
Proof.
  apply (failed_run_never_reads_as_success (H:=node)).
  - by intros cliArgs run [= <-].
  - apply (bool_decide_unpack _). by vm_compute.
Defined.

(** ** Rendering searches and timelines *)

Section Blocks.

Context `{Engine}.

(** A loop whose body appends a block to the text: the blocks of the
    items, rendered one by one from the empty text, appended in order;
    the first item that throws ends the loop with what it threw. *)
Lemma for_of_blocks (body : string -> value number -> result string)
    (items : list (value number)) (text : string) :
  (forall text item, body text item = (block ← body "" item; Ok (text +:+ block))) ->
  for_of body items text
  = (blocks ← mapM (body "") items; Ok (text +:+ join_blocks blocks)).
Proof.
  intros Hbody. revert text. induction items as [|item items IH]; intros text; simpl.
  - by rewrite str_app_nil_r.
  - rewrite Hbody. destruct (body "" item) as [block|e]; [simpl|done].
    rewrite IH. destruct (mapM (body "") items) as [blocks|e]; [simpl|done].
    by rewrite str_app_assoc.
Qed.

Lemma render_hit_block (text : string) (hit : value number) :
  render_hit text hit = (block ← render_hit "" hit; Ok (text +:+ block)).
Proof.
  unfold render_hit.
  destruct (get hit "title") as [title|e]; [simpl|done].
  destruct (if truthy title then Ok title else get hit "uri") as [label|e]; [simpl|done].
  destruct (to_string label) as [s_label|e]; [simpl|done].
  destruct (get hit "frame_id") as [frame_id|e]; [simpl|done].
  destruct (to_string frame_id) as [s_frame|e]; [simpl|done].
  destruct (get hit "snippet") as [snippet|e]; [simpl|done].
  destruct (to_string snippet) as [s_snippet|e]; [simpl|done].
  by rewrite !str_app_assoc.
Qed.

Lemma render_entry_block (text : string) (entry : value number) :
  render_entry text entry = (block ← render_entry "" entry; Ok (text +:+ block)).
Proof.
  unfold render_entry.
  destruct (get entry "timestamp") as [timestamp|e]; [simpl|done].
  destruct (to_number timestamp) as [seconds|e]; [simpl|done].
  destruct (seconds_toISOString seconds) as [date|]; [simpl|done].
  destruct (get entry "uri") as [uri|e]; [simpl|done].
  destruct (if truthy uri then to_string uri else _) as [s_label|e]; [simpl|done].
  destruct (get entry "preview") as [preview|e]; [simpl|done].
  destruct (slice_0_100 preview) as [sliced|e]; [simpl|done].
  destruct (to_string sliced) as [s_preview|e]; [simpl|done].
  by rewrite !str_app_assoc.
Qed.

Lemma str_take_length (n : nat) (s : string) :
  String.length (str_take n s) = Nat.min n (String.length s).
Proof.
  revert s. induction n as [|n IH]; intros [|c s]; simpl; try done.
  by rewrite IH.
Qed.

Lemma str_take_prefix (n : nat) (s : string) : exists rest, s = str_take n s +:+ rest.
Proof.
  revert s. induction n as [|n IH]; intros [|c s]; simpl; try by eexists.
  destruct (IH s) as [rest Hrest]. exists rest. by rewrite str_app_cons, <- Hrest.
Qed.

End Blocks.

(** X12. A successful search renders as its header followed by one block
    per hit, in the order of the hits; each block depends on its hit
    alone, and a hit that cannot be rendered fails the whole search with
    what it threw. With no hits the text is the header. *)
Theorem render_recall_is_header_then_blocks `{Engine}
    (r : CliResult) (fields : gmap string (value number))
    (total query : string) (hits : list (value number)) :
  success r = true ->
  JSON_parse (stdout r) = Some (VObj fields) ->
  to_string (default VUndefined (fields !! "total_hits")) = Ok total ->
  to_string (default VUndefined (fields !! "query")) = Ok query ->
  fields !! "hits" = Some (VArr hits) ->
  render_recall r
  = (blocks ← mapM (render_hit "") hits;
     Ok (text_response
           ("Found " +:+ total +:+ " results for " +:+ DQUOTE +:+ query +:+ DQUOTE
            +:+ ":" +:+ LF +:+ LF +:+ join_blocks blocks)))
  /\ (hits = [] ->
      render_recall r
      = Ok (text_response
              ("Found " +:+ total +:+ " results for " +:+ DQUOTE +:+ query +:+ DQUOTE
               +:+ ":" +:+ LF +:+ LF))).
Proof.
  intros Hsuccess Hparse Htotal Hquery Hhits.
  assert (Hrender : render_recall r
    = (blocks ← mapM (render_hit "") hits;
       Ok (text_response
             ("Found " +:+ total +:+ " results for " +:+ DQUOTE +:+ query +:+ DQUOTE
              +:+ ":" +:+ LF +:+ LF +:+ join_blocks blocks)))).
  { unfold render_recall, parse. rewrite Hparse, Hsuccess. simpl.
    rewrite Htotal, Hquery, Hhits. simpl.
    rewrite (for_of_blocks render_hit) by apply render_hit_block.
    destruct (mapM (render_hit "") hits) as [blocks|e]; [simpl|done].
    by rewrite !str_app_assoc. }
  split; [exact Hrender|].
  intros ->. rewrite Hrender. simpl. by rewrite !str_app_nil_r.
Qed.

(** Two hits, the second without a title: it is labelled by its uri. *)
Lemma render_recall_two_hits :
  render_recall (H:=node) {| success := true; stdout := TWO_HITS; stderr := "" |}
  = Ok (text_response
          ("Found 2 results for " +:+ DQUOTE +:+ "rust" +:+ DQUOTE +:+ ":" +:+ LF +:+ LF
           +:+ "**Borrowing** (frame 1)" +:+ LF +:+ "first" +:+ LF +:+ LF
           +:+ "**mv2://b** (frame 2)" +:+ LF +:+ "second" +:+ LF +:+ LF)).
Proof.
  refine (eq_trans
            (proj1 (render_recall_is_header_then_blocks (H:=node)
                      {| success := true; stdout := TWO_HITS; stderr := "" |}
                      _ "2" "rust" _ eq_refl eq_refl eq_refl eq_refl eq_refl))
            _).
  by vm_compute.
Defined.

(** X13. A successful timeline renders as its header followed by one
    block per entry, in order; an entry that cannot be rendered (an
    invalid timestamp, a preview that cannot be sliced) fails the whole
    timeline with what it threw, however many entries rendered before
    it: no partial listing is returned. *)
Theorem render_list_is_header_then_blocks `{Engine}
    (r : CliResult) (fields : gmap string (value number))
    (total : string) (entries : list (value number)) :
  success r = true ->
  JSON_parse (stdout r) = Some (VObj fields) ->
  to_string (default VUndefined (fields !! "total")) = Ok total ->
  fields !! "entries" = Some (VArr entries) ->
  render_list r
  = (blocks ← mapM (render_entry "") entries;
     Ok (text_response
           ("Memory contains " +:+ total +:+ " entries:" +:+ LF +:+ LF +:+ join_blocks blocks)))
  /\ (forall (before after : list (value number)) (bad : value number)
             (blocks : list string) (e : exn),
         entries = before ++ bad :: after ->
         mapM (render_entry "") before = Ok blocks ->
         render_entry "" bad = Throw e ->
         render_list r = Throw e).
Proof.
  intros Hsuccess Hparse Htotal Hentries.
  assert (Hrender : render_list r
    = (blocks ← mapM (render_entry "") entries;
       Ok (text_response
             ("Memory contains " +:+ total +:+ " entries:" +:+ LF +:+ LF
              +:+ join_blocks blocks)))).
  { unfold render_list, parse. rewrite Hparse, Hsuccess. simpl.
    rewrite Htotal, Hentries. simpl.
    rewrite (for_of_blocks render_entry) by apply render_entry_block.
    destruct (mapM (render_entry "") entries) as [blocks|e]; [simpl|done].
    by rewrite !str_app_assoc. }
  split; [exact Hrender|].
  intros before after bad blocks e -> Hbefore Hbad. rewrite Hrender.
  clear Hrender Hentries. revert blocks Hbefore.
  induction before as [|entry before IH]; intros blocks Hbefore; simpl.
  - by rewrite Hbad.
  - simpl in Hbefore. destruct (render_entry "" entry) as [block|e']; [simpl in *|done].
    destruct (mapM (render_entry "") before) as [blocks'|e'] eqn:Hrest; [simpl in *|done].
    specialize (IH blocks' eq_refl).
    by destruct (mapM (render_entry "") (before ++ bad :: after)).
Qed.

(** A good entry followed by one without a timestamp: the whole timeline
    fails with Invalid time value. *)
Lemma render_list_bad_entry :
  render_list (H:=node) {| success := true; stdout := ONE_ENTRY_THEN_A_BAD_ONE; stderr := "" |}
  = Throw (Fault InvalidTimeValue).
Proof.
  eapply (proj2 (render_list_is_header_then_blocks (H:=node)
                   {| success := true; stdout := ONE_ENTRY_THEN_A_BAD_ONE; stderr := "" |}
                   _ "2" _ eq_refl eq_refl eq_refl eq_refl)
            [VObj {[ "timestamp" := VNum (V8.Int 1700000000); "frame_id" := VNum (V8.Int 7);
                     "preview" := VStr "short" ]}]
            [] (VObj {[ "frame_id" := VNum (V8.Int 8); "preview" := VStr "no timestamp" ]})).
  - reflexivity.
  - by vm_compute.
  - by vm_compute.
Defined.

(** X14. The block of a timeline entry whose preview is a string shows
    at most the first 100 characters of the preview, always followed by
    three dots, also when the preview is shorter than 100 characters and
    nothing was cut. The entry is labelled by its uri when that is
    truthy and by frame- and its frame id otherwise. *)
Theorem render_entry_cuts_preview_at_100 `{Engine}
    (text : string) (fields : gmap string (value number))
    (seconds : number) (date label preview : string) :
  to_number (default VUndefined (fields !! "timestamp")) = Ok seconds ->
  seconds_toISOString seconds = Some date ->
  (truthy (default VUndefined (fields !! "uri")) = true
   /\ to_string (default VUndefined (fields !! "uri")) = Ok label)
  \/ (truthy (default VUndefined (fields !! "uri")) = false
      /\ exists frame_id, to_string (default VUndefined (fields !! "frame_id")) = Ok frame_id
                          /\ label = "frame-" +:+ frame_id) ->
  fields !! "preview" = Some (VStr preview) ->
  render_entry text (VObj fields)
  = Ok (text +:+ "**" +:+ label +:+ "** (" +:+ date +:+ ")" +:+ LF
        +:+ str_take 100 preview +:+ "..." +:+ LF +:+ LF)
  /\ String.length (str_take 100 preview) = Nat.min 100 (String.length preview)
  /\ exists rest, preview = str_take 100 preview +:+ rest.
Proof.
  intros Hseconds Hdate Hlabel Hpreview.
  split; [|split; [apply str_take_length|apply str_take_prefix]].
  unfold render_entry. simpl. rewrite Hseconds. simpl. rewrite Hdate. simpl.
  destruct Hlabel as [[Huri Hlabel]|[Huri (frame_id & Hframe & ->)]]; rewrite Huri.
  - rewrite Hlabel. simpl. rewrite Hpreview. simpl. by rewrite !str_app_assoc.
  - rewrite Hframe. simpl. rewrite Hpreview. simpl. by rewrite !str_app_assoc.
Qed.

(** A short preview, no uri: frame-7, the preview whole, three dots. *)
Lemma render_entry_short_preview :
  render_entry (H:=node) ""
    (VObj {[ "timestamp" := VNum (V8.Int 1700000000); "frame_id" := VNum (V8.Int 7);
             "preview" := VStr "short" ]})
  = Ok ("**frame-7** (2023-11-14T22:13:20.000Z)" +:+ LF +:+ "short..." +:+ LF +:+ LF).
Proof.
  refine (eq_trans
            (proj1 (render_entry_cuts_preview_at_100 (H:=node) ""
                      {[ "timestamp" := VNum (V8.Int 1700000000); "frame_id" := VNum (V8.Int 7);
                         "preview" := VStr "short" ]}
                      (V8.Int 1700000000) "2023-11-14T22:13:20.000Z" "frame-7" "short"
                      eq_refl eq_refl _ eq_refl))
            _).
  - right. split; [reflexivity|]. by exists "7".
  - by vm_compute.
Defined.

(** ** Documents that miss what a renderer reads *)

(** X15. A successful run whose document is not null is rendered even
    when the field the renderer reads is missing: memory_remember answers
    Stored in frame undefined and memory_create answers Created memory
    file: undefined. A successful run that prints null is an error: the
    field cannot be read. *)
Theorem missing_field_renders_undefined `{Engine} (r : CliResult) :
  success r = true ->
  (forall fields : gmap string (value number),
      JSON_parse (stdout r) = Some (VObj fields) ->
      (fields !! "frame_id" = None ->
       render_remember r = Ok (text_response "Stored in frame undefined"))
      /\ (fields !! "path" = None ->
          render_create r = Ok (text_response "Created memory file: undefined")))
  /\ (JSON_parse (stdout r) = Some VNull ->
      render_remember r = Throw (Fault (ReadOfNullish true "frame_id"))
      /\ render_create r = Throw (Fault (ReadOfNullish true "path"))).
Proof.
  intros Hsuccess. split.
  - intros fields Hparse. split; intros Hmissing.
    + unfold render_remember, parse. rewrite Hparse, Hsuccess. simpl. by rewrite Hmissing.
    + unfold render_create, parse. rewrite Hparse, Hsuccess. simpl. by rewrite Hmissing.
  - intros Hparse. split.
    + unfold render_remember, parse. by rewrite Hparse, Hsuccess.
    + unfold render_create, parse. by rewrite Hparse, Hsuccess.
Qed.

Lemma missing_field_example :
  render_remember (H:=node) {| success := true; stdout := "{}"; stderr := "" |}
  = Ok (text_response "Stored in frame undefined")
  /\ render_create (H:=node) {| success := true; stdout := "{}"; stderr := "" |}
     = Ok (text_response "Created memory file: undefined").
Proof.
  pose proof (proj1 (missing_field_renders_undefined (H:=node)
                       {| success := true; stdout := "{}"; stderr := "" |} eq_refl)
                ∅ eq_refl) as [Hremember Hcreate].
  split; [by apply Hremember|by apply Hcreate].
Defined.

(** X16. A successful search whose document has no hits field, or a
    successful timeline whose document has no entries field, is an
    error, not an empty listing: the loop has nothing to iterate. *)
Theorem missing_list_is_not_iterable `{Engine}
    (r : CliResult) (fields : gmap string (value number)) :
  success r = true ->
  JSON_parse (stdout r) = Some (VObj fields) ->
  (forall total query : string,
      to_string (default VUndefined (fields !! "total_hits")) = Ok total ->
      to_string (default VUndefined (fields !! "query")) = Ok query ->
      fields !! "hits" = None ->
      render_recall r = Throw (Fault (NotIterable "data.hits")))
  /\ (forall total : string,
      to_string (default VUndefined (fields !! "total")) = Ok total ->
      fields !! "entries" = None ->
      render_list r = Throw (Fault (NotIterable "data.entries"))).
Proof.
  intros Hsuccess Hparse. split.
  - intros total query Htotal Hquery Hhits.
    unfold render_recall, parse. rewrite Hparse, Hsuccess. simpl.
    by rewrite Htotal, Hquery, Hhits.
  - intros total Htotal Hentries.
    unfold render_list, parse. rewrite Hparse, Hsuccess. simpl.
    by rewrite Htotal, Hentries.
Qed.

Lemma missing_list_example :
  render_recall (H:=node) {| success := true; stdout := "{}"; stderr := "" |}
  = Throw (Fault (NotIterable "data.hits"))
  /\ render_list (H:=node) {| success := true; stdout := "{}"; stderr := "" |}
     = Throw (Fault (NotIterable "data.entries")).
Proof.
  pose proof (missing_list_is_not_iterable (H:=node)
                {| success := true; stdout := "{}"; stderr := "" |} ∅ eq_refl eq_refl)
    as [Hrecall Hlist].
  split.
  - by apply (Hrecall "undefined" "undefined").
  - by apply (Hlist "undefined").
Defined.

(** ** Bags *)

Lemma handler_ext `{Engine}
    (env : environment) (spawn : string -> list (value number) -> result child_run)
    (name : string) (a b : option (gmap string (value number))) :
  (forall key, arg a key = arg b key) ->
  handler env spawn name a = handler env spawn name b.
Proof.
  intros Hsame.
  unfold handler, handler_try, compile_remember, compile_recall, compile_list, compile_stats,
    push_if_set, push_stringified, push_tags.
  by rewrite !Hsame.
Qed.

(** X17. A call without a bag is answered as a call with the empty bag,
    and a key bound to undefined counts as a missing key: only the values
    the bag gives to the keys matter. *)
Theorem absent_bag_is_empty_bag `{Engine}
    (env : environment) (spawn : string -> list (value number) -> result child_run)
    (name : string) :
  handler env spawn name None = handler env spawn name (Some ∅)
  /\ forall (bag : gmap string (value number)) (key : string),
      handler env spawn name (Some (<[key := VUndefined]> bag))
      = handler env spawn name (Some (delete key bag)).
Proof.
  split.
  - apply handler_ext. intros key. unfold arg. simpl. by rewrite lookup_empty.
  - intros bag key. apply handler_ext. intros key'.
    rewrite arg_insert, arg_delete. by case_decide.
Qed.

(** ** The default path *)

Lemma compiled_second_is_resolved `{Engine}
    (env : environment) (args : option (gmap string (value number))) :
  Forall
    (fun compile : environment -> option (gmap string (value number))
                   -> result (list (value number)) =>
       forall cliArgs, compile env args = Ok cliArgs ->
         exists memPath, resolvePath env (arg args "path") = Ok memPath
                         /\ cliArgs !! 1%nat = Some memPath)
    [compile_remember; compile_recall; compile_list; compile_stats].
Proof.
  repeat (apply List.Forall_cons; [|]); [..|apply List.Forall_nil].
  all: intros cliArgs.
  - rewrite compile_remember_split.
    destruct (resolvePath env (arg args "path")) as [memPath|e]; [simpl|done].
    rewrite push_tags_tag_pairs, !push_if_set_flag_pair.
    intros [= <-]. by exists memPath.
  - unfold compile_recall.
    destruct (resolvePath env (arg args "path")) as [memPath|e]; [simpl|done].
    rewrite push_stringified_flag_pair, push_if_set_flag_pair.
    destruct (stringified (arg args "limit")) as [limit|e]; [simpl|done].
    intros [= <-]. by exists memPath.
  - unfold compile_list.
    destruct (resolvePath env (arg args "path")) as [memPath|e]; [simpl|done].
    rewrite push_stringified_flag_pair.
    destruct (stringified (arg args "limit")) as [limit|e]; [simpl|done].
    rewrite push_stringified_flag_pair.
    destruct (stringified (arg args "since")) as [since|e]; [simpl|done].
    rewrite push_stringified_flag_pair.
    destruct (stringified (arg args "until")) as [until|e]; [simpl|done].
    intros [= <-]. by exists memPath.
  - unfold compile_stats.
    destruct (resolvePath env (arg args "path")) as [memPath|e]; [simpl|done].
    intros [= <-]. by exists memPath.
Qed.

(** X18. For the four tools that resolve a path, a path argument that is
    missing or falsy (the empty string, null, 0, false) falls back to a
    configured default: whatever is spawned has the default path as its
    second element. *)
Theorem falsy_path_falls_back_to_default `{Engine}
    (env : environment) (spawn : string -> list (value number) -> result child_run)
    (name : string) (args : option (gmap string (value number)))
    (cliArgs : list (value number)) :
  name ∈ PATH_TOOLS ->
  truthy (arg args "path") = false ->
  DEFAULT_MEMORY_PATH env <> "" ->
  (handler env spawn name args).1 = [cliArgs] ->
  cliArgs !! 1%nat = Some (VStr (DEFAULT_MEMORY_PATH env)).
Proof.
  intros Hname Hpath Hdefault.
  assert (Hresolve : resolvePath env (arg args "path") = Ok (VStr (DEFAULT_MEMORY_PATH env))).
  { unfold resolvePath. rewrite Hpath. by apply String.eqb_neq in Hdefault as ->. }
  pose proof (compiled_second_is_resolved env args) as Hcompiled.
  apply Forall_cons in Hcompiled as [Hremember Hcompiled].
  apply Forall_cons in Hcompiled as [Hrecall Hcompiled].
  apply Forall_cons in Hcompiled as [Hlist Hcompiled].
  apply Forall_cons in Hcompiled as [Hstats _].
  rewrite handler_log. unfold PATH_TOOLS in Hname.
  repeat (apply elem_of_cons in Hname as [->|Hname]);
    [..|by apply elem_of_nil in Hname].
  all: unfold handler_try; repeat (case_decide; try done).
  all: rewrite pipeline_run.
  all: match goal with |- context [match ?compiled with _ => _ end] =>
         destruct compiled as [c|e] eqn:Hc; simpl; [|done]
       end.
  all: intros [= ->].
  - destruct (Hremember _ eq_refl) as (memPath & Hmem & ->). congruence.
  - destruct (Hrecall _ eq_refl) as (memPath & Hmem & ->). congruence.
  - destruct (Hlist _ eq_refl) as (memPath & Hmem & ->). congruence.
  - destruct (Hstats _ eq_refl) as (memPath & Hmem & ->). congruence.
Qed.

(** An empty path argument with the default /m.mv2. *)
Lemma falsy_path_example :
  let env := {| MEMVID_DEFAULT_PATH := Some "/m.mv2"; MEMVID_CLI_PATH := None |} in
  let spawn : string -> list (value number) -> result child_run :=
    fun _ _ => Ok {| emitted := [StdoutData "{}"]; ended := Close (Some 0) |} in
  (handler (H:=node) env spawn "memory_stats" (Some {[ "path" := VStr "" ]})).1
  = [[VStr "stats"; VStr "/m.mv2"]]
  /\ [VStr (num:=V8.double) "stats"; VStr "/m.mv2"] !! 1%nat = Some (VStr "/m.mv2").
Proof.
  split; [reflexivity|].
  apply (falsy_path_falls_back_to_default (H:=node)
           {| MEMVID_DEFAULT_PATH := Some "/m.mv2"; MEMVID_CLI_PATH := None |}
           (fun _ _ => Ok {| emitted := [StdoutData "{}"]; ended := Close (Some 0) |})
           "memory_stats" (Some {[ "path" := VStr "" ]})).
  - apply (bool_decide_unpack _). by vm_compute.
  - reflexivity.
  - discriminate.
  - reflexivity.
Defined.

(** ** The failure boundary, over children that may never end *)

Section AsyncBoundary.

Context `{Engine}.
Variable env : environment.
Variable launch : string -> list (value number) -> result Async.lifetime.

Lemma caught_message (e : exn) :
  text_response ("Error: " +:+ error_message e) = caught e.
Proof. by destruct e. Qed.

Lemma async_run (cliArgs : list (value number)) (render : CliResult -> result response) :
  render ∈ renderers ->
  match Async.runCli env launch cliArgs ≫= fun r => Async.now (render r) with
  | (spawned, Async.Resolved r) => (spawned, Some r)
  | (spawned, Async.Rejected error) =>
      (spawned, Some (text_response ("Error: " +:+ error_message error)))
  | (spawned, Async.Pending) => (spawned, None)
  end
  = awaited env launch cliArgs render.
Proof.
  intros Hrender. unfold Async.runCli, awaited.
  destruct (launch (CLI_PATH env) cliArgs) as [[run|]|e]; simpl;
    [|done|by rewrite caught_message].
  destruct (JSON_parse (stdout (settle run))) as [data|] eqn:Hparse.
  - destruct (render (settle run)) as [r|e]; simpl; [done|by rewrite caught_message].
  - pose proof (render_unparseable (settle run) Hparse) as Hall.
    rewrite Forall_forall in Hall. by rewrite (Hall render Hrender).
Qed.

Lemma async_pipeline (compiled : result (list (value number)))
    (render : CliResult -> result response) :
  render ∈ renderers ->
  match
    Async.now compiled ≫= fun cliArgs =>
      Async.runCli env launch cliArgs ≫= fun r => Async.now (render r)
  with
  | (spawned, Async.Resolved r) => (spawned, Some r)
  | (spawned, Async.Rejected error) =>
      (spawned, Some (text_response ("Error: " +:+ error_message error)))
  | (spawned, Async.Pending) => (spawned, None)
  end
  = match compiled with
    | Throw e => ([], Some (caught e))
    | Ok cliArgs => awaited env launch cliArgs render
    end.
Proof.
  intros Hrender. destruct compiled as [cliArgs|e]; [|simpl; by rewrite caught_message].
  rewrite <- (async_run cliArgs render Hrender). unfold Async.runCli. simpl.
  by destruct (launch (CLI_PATH env) cliArgs) as [[run|]|e]; simpl;
    try destruct (render (settle run)).
Qed.

(** What [awaited] answers is one text block, when it answers, and it
    fails to answer exactly when the child never ends. *)
Lemma awaited_text (cliArgs : list (value number)) (render : CliResult -> result response)
    (r : response) :
  (forall x, text_only (render x)) ->
  (awaited env launch cliArgs render).2 = Some r ->
  exists t, r = text_response t.
Proof.
  intros Htext. unfold awaited. simpl.
  destruct (launch (CLI_PATH env) cliArgs) as [[run|]|e]; [|done|by intros [= <-]; eexists].
  destruct (JSON_parse (stdout (settle run))); [|by intros [= <-]; eexists].
  specialize (Htext (settle run)).
  destruct (render (settle run)) as [resp|e]; intros [= <-]; [exact Htext|by eexists].
Qed.

Lemma awaited_pending (cliArgs : list (value number)) (render : CliResult -> result response) :
  (awaited env launch cliArgs render).2 = None
  <-> exists sent, (awaited env launch cliArgs render).1 = [sent]
                   /\ launch (CLI_PATH env) sent = Ok Async.NeverEnds.
Proof.
  unfold awaited. simpl. split.
  - intros Hnone. exists cliArgs. split; [done|].
    destruct (launch (CLI_PATH env) cliArgs) as [[run|]|e]; try done.
    destruct (JSON_parse (stdout (settle run))); [|done].
    by destruct (render (settle run)).
  - intros (sent & [= <-] & Hsent). by rewrite Hsent.
Qed.

End AsyncBoundary.

Ltac in_list := apply elem_of_cons; first [by left | right; in_list].

Section AsyncStages.

Context `{Engine}.
Variable env : environment.
Variable launch : string -> list (value number) -> result Async.lifetime.
Variable name : string.
Variable args : option (gmap string (value number)).

Lemma async_staged :
  Forall
    (fun '(tool, compile, render) =>
       name = tool ->
       Async.handler env launch name args
       = match compile env args with
         | Throw e => ([], Some (caught e))
         | Ok cliArgs => awaited env launch cliArgs render
         end)
    STAGED.
Proof.
  unfold STAGED.
  repeat (apply List.Forall_cons; [|]); [..|apply List.Forall_nil].
  all: intros ->; unfold Async.handler, Async.handler_try; repeat (case_decide; try done).
  all: apply async_pipeline; unfold renderers; in_list.
Qed.

Lemma async_create :
  name = "memory_create" ->
  Async.handler env launch name args
  = if truthy (arg args "path")
    then awaited env launch [VStr "create"; arg args "path"] render_create
    else ([], Some (text_response "Error: path is required")).
Proof.
  intros ->. unfold Async.handler, Async.handler_try. repeat (case_decide; try done).
  destruct (truthy (arg args "path")); [|done].
  apply async_run. unfold renderers. in_list.
Qed.

Lemma async_unknown :
  name ∉ TOOL_NAMES ->
  Async.handler env launch name args = ([], Some (text_response ("Unknown tool: " +:+ name))).
Proof.
  intros Hunknown. unfold Async.handler, Async.handler_try.
  repeat (case_decide as Hname;
          [exfalso; apply Hunknown; rewrite Hname; unfold TOOL_NAMES; in_list|clear Hname]).
  reflexivity.
Qed.

(** Every call is a staged tool, memory_create or an unknown name, and
    answers accordingly. *)
Lemma async_answer :
  (exists cliArgs render,
      (forall x, text_only (render x))
      /\ Async.handler env launch name args = awaited env launch cliArgs render)
  \/ (exists t, Async.handler env launch name args = ([], Some (text_response t))).
Proof.
  pose proof async_staged as Hstaged. unfold STAGED in Hstaged.
  apply Forall_cons in Hstaged as [Hremember Hstaged].
  apply Forall_cons in Hstaged as [Hrecall Hstaged].
  apply Forall_cons in Hstaged as [Hlist Hstaged].
  apply Forall_cons in Hstaged as [Hstats _].
  assert (Hcaught : forall e, exists t, caught e = text_response t) by (intros e; by eexists).
  destruct (decide (name = "memory_remember")) as [Hname|?].
  { rewrite (Hremember Hname). destruct (compile_remember env args) as [cliArgs|e].
    - left. exists cliArgs, render_remember. split; [apply render_remember_text_only|done].
    - right. by eexists. }
  destruct (decide (name = "memory_recall")) as [Hname|?].
  { rewrite (Hrecall Hname). destruct (compile_recall env args) as [cliArgs|e].
    - left. exists cliArgs, render_recall. split; [apply render_recall_text_only|done].
    - right. by eexists. }
  destruct (decide (name = "memory_list")) as [Hname|?].
  { rewrite (Hlist Hname). destruct (compile_list env args) as [cliArgs|e].
    - left. exists cliArgs, render_list. split; [apply render_list_text_only|done].
    - right. by eexists. }
  destruct (decide (name = "memory_stats")) as [Hname|?].
  { rewrite (Hstats Hname). destruct (compile_stats env args) as [cliArgs|e].
    - left. exists cliArgs, render_stats. split; [apply render_stats_text_only|done].
    - right. by eexists. }
  destruct (decide (name = "memory_create")) as [Hname|?].
  { rewrite (async_create Hname). destruct (truthy (arg args "path")).
    - left. eexists _, render_create. split; [apply render_create_text_only|done].
    - right. by eexists. }
  right. eexists. apply async_unknown. unfold TOOL_NAMES.
  intros Hin. repeat (apply elem_of_cons in Hin as [Hin|Hin]; [done|]).
  by apply elem_of_nil in Hin.
Qed.

End AsyncStages.

(** C1, as the code has it. For every tool name and every argument bag,
    whatever the engine, the environment and the operating system do:
    (1) a response, when the handler returns one, has exactly one block,
    of type text; (2) the handler returns no response exactly when it has
    spawned a child that never ends (there is no timeout); (3) for the
    four tools that compile, run and render, a fault compiling the
    vector (the path does not resolve, an argument has no string
    conversion) is answered with Error: and its message and nothing is
    spawned, and after the spawn the answer is as [awaited] says: a spawn
    that throws, output that does not parse and a fault while rendering
    are each answered with Error: and the message of that fault; (4) in
    particular a path that does not resolve is answered with the message
    of resolvePath; (5) memory_create answers Error: path is required
    without a truthy path and as [awaited] says with one; (6) an unknown
    name is answered with Unknown tool: and the name. *)
Theorem handler_answers_unless_the_child_never_ends `{Engine}
    (env : environment) (launch : string -> list (value number) -> result Async.lifetime)
    (name : string) (args : option (gmap string (value number))) :
  let answer := Async.handler env launch name args in
  (forall r, answer.2 = Some r ->
             exists t, r = {| content := [ {| type := "text"; text := t |} ] |})
  /\ (answer.2 = None
      <-> exists cliArgs, answer.1 = [cliArgs]
                          /\ launch (CLI_PATH env) cliArgs = Ok Async.NeverEnds)
  /\ Forall
       (fun '(tool, compile, render) =>
          name = tool ->
          answer = match compile env args with
                   | Throw e => ([], Some (caught e))
                   | Ok cliArgs => awaited env launch cliArgs render
                   end)
       STAGED
  /\ (name ∈ PATH_TOOLS ->
      truthy (arg args "path") = false ->
      DEFAULT_MEMORY_PATH env = "" ->
      answer
      = ([], Some (text_response
                     "Error: No memory file path provided. Set MEMVID_DEFAULT_PATH or provide 'path' parameter.")))
  /\ (name = "memory_create" ->
      answer = if truthy (arg args "path")
               then awaited env launch [VStr "create"; arg args "path"] render_create
               else ([], Some (text_response "Error: path is required")))
  /\ (name ∉ TOOL_NAMES ->
      answer = ([], Some (text_response ("Unknown tool: " +:+ name)))).
Proof.
  intros answer. subst answer.
  pose proof (async_staged env launch name args) as Hstaged.
  split; [|split; [|split; [exact Hstaged|split; [|split]]]].
  - intros r.
    destruct (async_answer env launch name args)
      as [(cliArgs & render & Htext & ->)|(t & ->)].
    + by apply awaited_text.
    + intros [= <-]. by exists t.
  - destruct (async_answer env launch name args)
      as [(cliArgs & render & Htext & ->)|(t & ->)].
    + apply awaited_pending.
    + simpl. split; [done|]. by intros (cliArgs & ? & _).
  - intros Hname Hpath Hdefault.
    pose proof (resolvePath_nothing env _ Hpath Hdefault) as Hresolve.
    unfold STAGED in Hstaged.
    apply Forall_cons in Hstaged as [Hremember Hstaged].
    apply Forall_cons in Hstaged as [Hrecall Hstaged].
    apply Forall_cons in Hstaged as [Hlist Hstaged].
    apply Forall_cons in Hstaged as [Hstats _].
    unfold PATH_TOOLS in Hname.
    repeat (apply elem_of_cons in Hname as [->|Hname]);
      [..|by apply elem_of_nil in Hname].
    + rewrite (Hremember eq_refl). unfold compile_remember. by rewrite Hresolve.
    + rewrite (Hrecall eq_refl). unfold compile_recall. by rewrite Hresolve.
    + rewrite (Hlist eq_refl). unfold compile_list. by rewrite Hresolve.
    + rewrite (Hstats eq_refl). unfold compile_stats. by rewrite Hresolve.
  - apply async_create.
  - apply async_unknown.
Qed.

(** With Node and a CLI that reads stdin when it gets no --content:
    memory_remember with an empty content spawns put and the path alone
    and never answers; with a content it answers. *)
Lemma remember_without_content_never_answers :
  let env := {| MEMVID_DEFAULT_PATH := Some "/m.mv2"; MEMVID_CLI_PATH := None |} in
  Async.handler (H:=node) env PUT_READS_STDIN "memory_remember"
    (Some {[ "content" := VStr "" ]})
  = ([[VStr "put"; VStr "/m.mv2"]], None)
  /\ Async.handler (H:=node) env PUT_READS_STDIN "memory_remember"
       (Some {[ "content" := VStr "x" ]})
     = ([[VStr "put"; VStr "/m.mv2"; VStr "--content"; VStr "x"]],
        Some (text_response "Stored in frame 42")).
Proof. split; by vm_compute. Qed.

(** With Node, one fault per stage of memory_list: a limit without a
    string conversion, a spawn that throws, output that is not JSON, a
    document without entries; and a child that never ends. *)
Lemma handler_stage_faults :
  let env := {| MEMVID_DEFAULT_PATH := Some "/m.mv2"; MEMVID_CLI_PATH := None |} in
  let prints (out : string) : string -> list (value number) -> result Async.lifetime :=
    fun _ _ => Ok (Async.Ends {| emitted := [StdoutData out]; ended := Close (Some 0) |}) in
  Async.handler (H:=node) env (prints "{}") "memory_list"
    (Some {[ "limit" := VObj {[ "toString" := VNull ]} ]})
  = ([], Some (text_response "Error: Cannot convert object to primitive value"))
  /\ Async.handler (H:=node) env (fun _ _ => Throw (Error "spawn EINVAL")) "memory_list" None
     = ([[VStr "timeline"; VStr "/m.mv2"]], Some (text_response "Error: spawn EINVAL"))
  /\ Async.handler (H:=node) env (prints "") "memory_list" None
     = ([[VStr "timeline"; VStr "/m.mv2"]],
        Some (text_response "Error: Unexpected end of JSON input"))
  /\ Async.handler (H:=node) env (prints "{}") "memory_list" None
     = ([[VStr "timeline"; VStr "/m.mv2"]],
        Some (text_response "Error: data.entries is not iterable"))
  /\ Async.handler (H:=node) env (fun _ _ => Ok Async.NeverEnds) "memory_list" None
     = ([[VStr "timeline"; VStr "/m.mv2"]], None).
Proof.
  intros env prints.
  assert (Hstage : forall launch args,
             Async.handler (H:=node) env launch "memory_list" args
             = match compile_list env args with
               | Throw e => ([], Some (caught e))
               | Ok cliArgs => awaited env launch cliArgs render_list
               end).
  { intros launch args.
    pose proof (proj1 (proj2 (proj2
      (handler_answers_unless_the_child_never_ends (H:=node) env launch "memory_list" args))))
      as Hstaged.
    unfold STAGED in Hstaged.
    apply Forall_cons in Hstaged as [_ Hstaged].
    apply Forall_cons in Hstaged as [_ Hstaged].
    apply Forall_cons in Hstaged as [Hlist _].
    exact (Hlist eq_refl). }
  repeat split; rewrite Hstage; reflexivity.
Defined.

(** The two embeddings of the handler agree on children that end: over an
    operating system all of whose children end, the handler that may
    wait for ever answers, and answers what [handler] answers. *)
Lemma async_handler_agrees `{Engine}
    (env : environment) (spawn : string -> list (value number) -> result child_run)
    (name : string) (args : option (gmap string (value number))) :
  Async.handler env
    (fun file cliArgs =>
       match spawn file cliArgs with
       | Ok run => Ok (Async.Ends run)
       | Throw e => Throw e
       end)
    name args
  = ((handler env spawn name args).1, Some (handler env spawn name args).2).
Proof.
  assert (Hpipeline : forall compiled render,
    match
      Async.now compiled ≫= fun cliArgs =>
        Async.runCli env
          (fun file cliArgs =>
             match spawn file cliArgs with
             | Ok run => Ok (Async.Ends run)
             | Throw e => Throw e
             end) cliArgs ≫= fun r => Async.now (render r)
    with
    | (spawned, Async.Resolved r) => (spawned, Some r)
    | (spawned, Async.Rejected error) =>
        (spawned, Some (text_response ("Error: " +:+ error_message error)))
    | (spawned, Async.Pending) => (spawned, None)
    end
    = (match
         pure compiled ≫= fun cliArgs => runCli env spawn cliArgs ≫= fun r => pure (render r)
       with
       | (spawned, Ok r) => (spawned, r)
       | (spawned, Throw error) =>
           (spawned, text_response ("Error: " +:+ error_message error))
       end.1,
       Some
         match
           pure compiled ≫= fun cliArgs => runCli env spawn cliArgs ≫= fun r => pure (render r)
         with
         | (spawned, Ok r) => (spawned, r)
         | (spawned, Throw error) =>
             (spawned, text_response ("Error: " +:+ error_message error))
         end.2)).
  { intros compiled render. destruct compiled as [cliArgs|e]; [|done].
    unfold Async.runCli, runCli. simpl.
    destruct (spawn (CLI_PATH env) cliArgs) as [run|e]; simpl; [|done].
    by destruct (render (settle run)). }
  unfold Async.handler, Async.handler_try, handler, handler_try.
  repeat case_decide; try done; try apply Hpipeline.
  destruct (negb (truthy (arg args "path"))); [done|].
  unfold Async.runCli, runCli. simpl.
  destruct (spawn (CLI_PATH env) [VStr "create"; arg args "path"]) as [run|e]; simpl; [|done].
  by destruct (render_create (settle run)).
Qed.
